(** * resume-luxe-studio: the resume store, the editing session and the
    template gallery

    A shallow embedding of
    - the database migration (tables [profiles], [resumes] and
      [resume_templates], their row-level-security policies, the
      [update_updated_at_column] and [handle_new_user] triggers and the
      seeded templates),
    - [src/pages/Builder.tsx] ([fetchResume], [saveResume] and the handlers
      that edit the in-memory content),
    - [src/pages/Dashboard.tsx] ([fetchResumes], [fetchProfile],
      [createNewResume], [deleteResume]),
    - [src/pages/TemplateGallery.tsx] ([fetchTemplates], [filterTemplates],
      [categories], [useTemplate]),
    followed by the properties of the specification that concern them and
    by further properties of the code.

    Conventions.  A [jsonb] column and a JavaScript value read from one are a
    [Js.Json]; objects are finite maps, so equality of [Json] values is deep
    equality up to the order of keys.  Strings are byte strings and
    [toLowerCase] folds the ASCII letters only.  A timestamp is the number of
    microseconds since the epoch.  [None] stands for SQL [NULL] in a nullable
    column and for [undefined] when a property is read. *)

From stdpp Require Import base strings list gmap.
From Stdlib Require Import ZArith Ascii Sorted.

Open Scope string_scope.

(* ===================================================================== *)
(** * JavaScript values and string helpers *)
(* ===================================================================== *)

Module Js.

(** JSON values.  Numbers are kept as integers: the documents of this
    application carry none, and only their being zero matters below. *)
#[warnings="-register-all"]
Inductive Json :=
  | JNull
  | JBool (b : bool)
  | JNum (n : Z)
  | JStr (s : string)
  | JArr (items : list Json)
  | JObj (props : gmap string Json).

(** JavaScript truthiness, as used by [||]. *)
Definition truthy (v : Json) : bool :=
  match v with
  | JNull => false
  | JBool b => b
  | JNum n => negb (n =? 0)%Z
  | JStr s => negb (String.eqb s "")
  | JArr _ | JObj _ => true
  end.

(** [v || d] *)
Definition or_else (v d : Json) : Json := if truthy v then v else d.

(** [v.k] where [v] is an object; [None] is [undefined].  On the other
    values the model answers [None] as well (reading a property of [null]
    would raise). *)
Definition get (v : Json) (k : string) : option Json :=
  match v with
  | JObj props => props !! k
  | _ => None
  end.

(** The elements of an array. *)
Definition items_of (v : Json) : list Json :=
  match v with
  | JArr items => items
  | _ => []
  end.

Definition lower_ascii (c : ascii) : ascii :=
  let n := nat_of_ascii c in
  if ((65 <=? n) && (n <=? 90))%nat then ascii_of_nat (n + 32) else c.

Fixpoint toLowerCase (s : string) : string :=
  match s with
  | EmptyString => EmptyString
  | String c s' => String (lower_ascii c) (toLowerCase s')
  end.

(** [s.startsWith(t)] *)
Fixpoint startsWith (s t : string) : bool :=
  match t, s with
  | EmptyString, _ => true
  | String _ _, EmptyString => false
  | String b t', String a s' => Ascii.eqb a b && startsWith s' t'
  end.

(** [s.includes(t)] *)
Fixpoint includes (s t : string) : bool :=
  startsWith s t ||
  match s with
  | EmptyString => false
  | String _ s' => includes s' t
  end.

End Js.

(* ===================================================================== *)
(** * The store: tables, policies, trigger, queries *)
(* ===================================================================== *)

Module Sql.

(** What the client library hands back: [{ data, error }]. *)
Inductive Response (A : Type) :=
  | Ok (data : A)
  | Failure (message : string).
Arguments Ok {A} data.
Arguments Failure {A} message.

(** [.single()]: exactly one row, or an error. *)
Definition single {A} (rows : list A) : Response A :=
  match rows with
  | [row] => Ok row
  | _ => Failure "JSON object requested, multiple (or no) rows returned"
  end.

(** [ORDER BY]: [before a b] says that [a] may stand before [b].  The
    database leaves the order of ties open; the model keeps them in table
    order. *)
Section OrderBy.
Context {A : Type} (before : A → A → bool).

Fixpoint place (x : A) (sorted : list A) : list A :=
  match sorted with
  | [] => [x]
  | y :: rest => if before x y then x :: y :: rest else y :: place x rest
  end.

Fixpoint order_by (rows : list A) : list A :=
  match rows with
  | [] => []
  | x :: rest => place x (order_by rest)
  end.
End OrderBy.

(** [ORDER BY col DESC] on a [NOT NULL] column. *)
Definition desc (a b : Z) : bool := (b <=? a)%Z.

(** [ORDER BY col DESC] on a nullable column: [NULL]s come first. *)
Definition desc_nulls_first (a b : option Z) : bool :=
  match a, b with
  | None, _ => true
  | Some _, None => false
  | Some x, Some y => (y <=? x)%Z
  end.

(** [UPDATE t SET ... WHERE ...] under row-level security.  A row is a
    target when it satisfies the [WHERE] clause and the policy's [USING]
    expression; rows that are not targets are left alone without an error.
    For a target the [SET] clause builds the new row, the [BEFORE UPDATE]
    row trigger rewrites it, and the policy's [WITH CHECK] expression must
    accept the outcome, otherwise the statement fails.  The table
    constraints are checked on the resulting table. *)
Section Update.
Context {Row : Type}.
Variable using_expr : Row → bool.
Variable check_expr : Row → bool.
Variable before_update : Row → Row.
Variable constraints : list Row → bool.

Definition update_row (where_clause : Row → bool) (set_clause : Row → Row)
    (OLD : Row) : option Row :=
  if where_clause OLD && using_expr OLD then
    let NEW := before_update (set_clause OLD) in
    if check_expr NEW then Some NEW else None
  else Some OLD.

Definition update (where_clause : Row → bool) (set_clause : Row → Row)
    (table : list Row) : Response (list Row) :=
  match mapM (update_row where_clause set_clause) table with
  | Some table' =>
      if constraints table' then Ok table'
      else Failure "constraint violation"
  | None => Failure "new row violates row-level security policy"
  end.
End Update.

(** [INSERT INTO t ...] of one row under row-level security: the policy's
    [WITH CHECK] expression must accept the new row and the table
    constraints must hold with it; the row goes to the end of the table. *)
Section Insert.
Context {Row : Type}.
Variable check_expr : Row → bool.
Variable constraints : list Row → bool.

Definition insert (NEW : Row) (table : list Row) : Response (list Row) :=
  if check_expr NEW then
    if constraints (table ++ [NEW])%list then Ok (table ++ [NEW])%list
    else Failure "constraint violation"
  else Failure "new row violates row-level security policy".
End Insert.

(** [DELETE FROM t WHERE ...] under row-level security: the rows that
    satisfy the [WHERE] clause and the policy's [USING] expression go, the
    others stay, and there is no error for a row the policy hides. *)
Definition delete {Row} (using_expr where_clause : Row → bool)
    (table : list Row) : Response (list Row) :=
  Ok (filter (λ r, ¬ (where_clause r && using_expr r)) table).

(** A row is a target of an update: the [WHERE] clause and the [USING]
    expression both hold of it. *)
Definition targeted {Row} (where_clause using_expr : Row → bool)
    (OLD : Row) : Prop :=
  where_clause OLD && using_expr OLD = true.

(** Rows that carry the [updated_at] column. *)
Class Timestamped (Row : Type) := {
  get_updated_at : Row → Z;
  set_updated_at : Z → Row → Row;
}.

(** [
    CREATE FUNCTION update_updated_at_column() ...
      NEW.updated_at = now(); RETURN NEW;
    ] *)
Definition update_updated_at_column {Row} `{Timestamped Row}
    (now : Z) (NEW : Row) : Row :=
  set_updated_at now NEW.

End Sql.

Module Net.
(** A request either reaches the store, or the transport fails with a
    message and the store never sees it. *)
Definition request {A} (fault : option string) (answer : Sql.Response A)
    : Sql.Response A :=
  match fault with
  | Some message => Sql.Failure message
  | None => answer
  end.
End Net.

(** ** Table [public.resumes] *)

Module Resumes.

Record Row := {
  id : string;                (* UUID NOT NULL PRIMARY KEY *)
  user_id : string;           (* UUID NOT NULL *)
  title : string;             (* TEXT NOT NULL DEFAULT 'Untitled Resume' *)
  template_id : string;       (* TEXT NOT NULL DEFAULT 'modern-minimal' *)
  content : Js.Json;          (* JSONB NOT NULL DEFAULT '{}' *)
  is_public : option bool;    (* BOOLEAN DEFAULT false *)
  created_at : Z;             (* TIMESTAMPTZ NOT NULL DEFAULT now() *)
  updated_at : Z;             (* TIMESTAMPTZ NOT NULL DEFAULT now() *)
}.

(** The row that [INSERT INTO resumes (id, user_id)] leaves behind: every
    other column at its declared default. *)
Definition with_defaults (new_id owner : string) (now : Z) : Row :=
  {| id := new_id; user_id := owner; title := "Untitled Resume";
     template_id := "modern-minimal"; content := Js.JObj ∅;
     is_public := Some false; created_at := now; updated_at := now |}.

#[global] Instance timestamped : Sql.Timestamped Row := {|
  Sql.get_updated_at := updated_at;
  Sql.set_updated_at t r :=
    {| id := id r; user_id := user_id r; title := title r;
       template_id := template_id r; content := content r;
       is_public := is_public r; created_at := created_at r;
       updated_at := t |};
|}.

(** [auth.uid() = user_id]; an anonymous caller has [auth.uid()] [NULL]
    and the comparison is then not true. *)
Definition owned_by (uid : option string) (r : Row) : bool :=
  bool_decide (uid = Some (user_id r)).

(** "Users can view their own resumes":
    [USING (auth.uid() = user_id OR is_public = true)] *)
Definition select_policy (uid : option string) (r : Row) : bool :=
  owned_by uid r || bool_decide (is_public r = Some true).

(** "Users can create their own resumes":
    [WITH CHECK (auth.uid() = user_id)] *)
Definition insert_check (uid : option string) (r : Row) : bool :=
  owned_by uid r.

(** "Users can update their own resumes": [USING (auth.uid() = user_id)].
    The policy names no [WITH CHECK] expression, and the database then
    applies the [USING] expression to the new row as well. *)
Definition update_using (uid : option string) (r : Row) : bool :=
  owned_by uid r.
Definition update_check (uid : option string) (r : Row) : bool :=
  update_using uid r.

(** "Users can delete their own resumes": [USING (auth.uid() = user_id)] *)
Definition delete_using (uid : option string) (r : Row) : bool :=
  owned_by uid r.

(** [PRIMARY KEY (id)] *)
Definition constraints (table : list Row) : bool :=
  bool_decide (NoDup (id <$> table)).

(** [SELECT * FROM resumes WHERE ...] as seen by caller [uid]. *)
Definition select (uid : option string) (where_clause : Row → bool)
    (table : list Row) : list Row :=
  filter (λ r, select_policy uid r && where_clause r) table.

(** [UPDATE resumes SET ... WHERE ...] issued by caller [uid] when the
    store's clock reads [now]; the trigger [update_resumes_updated_at]
    runs [update_updated_at_column] before each row is written. *)
Definition update (uid : option string) (now : Z)
    (where_clause : Row → bool) (set_clause : Row → Row)
    (table : list Row) : Sql.Response (list Row) :=
  Sql.update (update_using uid) (update_check uid)
    (Sql.update_updated_at_column now) constraints
    where_clause set_clause table.

(** The row that [INSERT INTO resumes (user_id, title, template_id,
    content)] builds: [id] from [gen_random_uuid()], here [new_id], the flag
    and the two timestamps at their defaults. *)
Definition inserted (new_id : string) (now : Z)
    (owner heading template : string) (document : Js.Json) : Row :=
  {| id := new_id; user_id := owner; title := heading;
     template_id := template; content := document;
     is_public := Some false; created_at := now; updated_at := now |}.

(** [INSERT ... RETURNING *] issued by caller [uid], as
    [.insert([...]).select()] sends it: the insert policy checks the new
    row, and so does the select policy because the row is read back. *)
Definition insert_returning (uid : option string) (NEW : Row)
    (table : list Row) : Sql.Response (list Row * Row) :=
  match Sql.insert (λ r, insert_check uid r && select_policy uid r)
          constraints NEW table with
  | Sql.Ok table' => Sql.Ok (table', NEW)
  | Sql.Failure message => Sql.Failure message
  end.

(** [DELETE FROM resumes WHERE ...] issued by caller [uid]. *)
Definition delete (uid : option string) (where_clause : Row → bool)
    (table : list Row) : Sql.Response (list Row) :=
  Sql.delete (delete_using uid) where_clause table.

End Resumes.

(** ** Table [public.profiles] *)

Module Profiles.

Record Row := {
  id : string;                        (* UUID NOT NULL PRIMARY KEY *)
  user_id : string;                   (* UUID NOT NULL UNIQUE *)
  display_name : option string;       (* TEXT *)
  avatar_url : option string;         (* TEXT *)
  subscription_tier : option string;  (* TEXT DEFAULT 'free' CHECK (...) *)
  created_at : Z;
  updated_at : Z;
}.

#[global] Instance timestamped : Sql.Timestamped Row := {|
  Sql.get_updated_at := updated_at;
  Sql.set_updated_at t r :=
    {| id := id r; user_id := user_id r; display_name := display_name r;
       avatar_url := avatar_url r; subscription_tier := subscription_tier r;
       created_at := created_at r; updated_at := t |};
|}.

Definition owned_by (uid : option string) (r : Row) : bool :=
  bool_decide (uid = Some (user_id r)).

(** "Users can view their own profile" *)
Definition select_policy (uid : option string) (r : Row) : bool :=
  owned_by uid r.

(** "Users can update their own profile": [USING] only, so the same
    expression guards the new row. *)
Definition update_using (uid : option string) (r : Row) : bool :=
  owned_by uid r.
Definition update_check (uid : option string) (r : Row) : bool :=
  update_using uid r.

(** "Users can insert their own profile" *)
Definition insert_check (uid : option string) (r : Row) : bool :=
  owned_by uid r.

(** [CHECK (subscription_tier IN ('free', 'premium'))]; a [NULL] tier
    passes the check. *)
Definition tier_ok (r : Row) : bool :=
  match subscription_tier r with
  | None => true
  | Some t => String.eqb t "free" || String.eqb t "premium"
  end.

(** [PRIMARY KEY (id)], [UNIQUE (user_id)] and the tier check. *)
Definition constraints (table : list Row) : bool :=
  bool_decide (NoDup (id <$> table)) &&
  bool_decide (NoDup (user_id <$> table)) &&
  forallb tier_ok table.

Definition update (uid : option string) (now : Z)
    (where_clause : Row → bool) (set_clause : Row → Row)
    (table : list Row) : Sql.Response (list Row) :=
  Sql.update (update_using uid) (update_check uid)
    (Sql.update_updated_at_column now) constraints
    where_clause set_clause table.

(** [SELECT * FROM profiles WHERE ...] as seen by caller [uid]. *)
Definition select (uid : option string) (where_clause : Row → bool)
    (table : list Row) : list Row :=
  filter (λ r, select_policy uid r && where_clause r) table.

(** A row of [auth.users], as far as the trigger reads it. *)
Record AuthUser := {
  auth_id : string;                      (* id *)
  raw_user_meta_data : option Js.Json;   (* jsonb *)
}.

(** [doc ->> key]: the member as text, [NULL] when the document is no
    object, has no such member or holds JSON null there.  A string gives its
    characters; for the other values the database prints the JSON text,
    which is the parameter [render]. *)
Definition arrow_text (render : Js.Json → string) (doc : option Js.Json)
    (key : string) : option string :=
  match doc with
  | Some (Js.JObj props) =>
      match props !! key with
      | Some (Js.JStr s) => Some s
      | Some Js.JNull => None
      | Some v => Some (render v)
      | None => None
      end
  | _ => None
  end.

(** [
    CREATE FUNCTION handle_new_user() ... SECURITY DEFINER ...
      INSERT INTO public.profiles (user_id, display_name)
      VALUES (NEW.id, NEW.raw_user_meta_data ->> 'display_name');
    ]
    fired after each insert on [auth.users].  The function runs with the
    rights of its owner, so no policy is consulted; the constraints are.
    [new_id] is the value of [gen_random_uuid()]. *)
Definition handle_new_user (render : Js.Json → string) (new_id : string)
    (now : Z) (NEW : AuthUser) (table : list Row)
    : Sql.Response (list Row) :=
  Sql.insert (λ _, true) constraints
    {| id := new_id; user_id := auth_id NEW;
       display_name := arrow_text render (raw_user_meta_data NEW)
                         "display_name";
       avatar_url := None; subscription_tier := Some "free";
       created_at := now; updated_at := now |}
    table.

End Profiles.

(** ** Table [public.resume_templates] *)

Module Templates.

Record Row := {
  id : string;                (* TEXT NOT NULL PRIMARY KEY *)
  name : string;              (* TEXT NOT NULL *)
  category : string;          (* TEXT NOT NULL *)
  preview_url : option string;
  is_premium : option bool;   (* BOOLEAN DEFAULT false *)
  rating : option Z;          (* DECIMAL(2,1) DEFAULT 4.5, in tenths *)
  downloads : option Z;       (* INTEGER DEFAULT 0 *)
  template_data : Js.Json;    (* JSONB NOT NULL DEFAULT '{}' *)
  created_at : Z;
}.

(** "Templates are viewable by everyone": [USING (true)] *)
Definition select_policy (uid : option string) (r : Row) : bool := true.

Definition select (uid : option string) (table : list Row) : list Row :=
  filter (λ r, select_policy uid r) table.

Definition styling (layout primary secondary : string) : Js.Json :=
  Js.JObj {[ "layout" := Js.JStr layout;
             "colors" := Js.JObj {[ "primary" := Js.JStr primary;
                                    "secondary" := Js.JStr secondary ]} ]}.

Definition seeded (key label cat : string) (premium : bool)
    (tenths count : Z) (data : Js.Json) (now : Z) : Row :=
  {| id := key; name := label; category := cat; preview_url := None;
     is_premium := Some premium; rating := Some tenths;
     downloads := Some count; template_data := data; created_at := now |}.

(** The rows of [INSERT INTO public.resume_templates ... VALUES ...], in
    the order of the statement; [now] is the time of the migration. *)
Definition seed (now : Z) : list Row := [
  seeded "executive-pro" "Executive Pro" "Executive" true 49 12000
    (styling "executive" "#6366f1" "#8b5cf6") now;
  seeded "creative-edge" "Creative Edge" "Creative" false 48 8500
    (styling "creative" "#ec4899" "#f97316") now;
  seeded "tech-innovator" "Tech Innovator" "Technology" true 49 15000
    (styling "modern" "#06b6d4" "#3b82f6") now;
  seeded "modern-minimal" "Modern Minimal" "Minimalist" false 47 9200
    (styling "minimal" "#10b981" "#14b8a6") now;
  seeded "professional-plus" "Professional Plus" "Business" true 50 20000
    (styling "professional" "#6366f1" "#8b5cf6") now;
  seeded "designers-choice" "Designer's Choice" "Creative" false 46 6800
    (styling "artistic" "#f43f5e" "#ec4899") now
].

End Templates.

(* ===================================================================== *)
(** * The editing session ([Builder.tsx]) *)
(* ===================================================================== *)

Module Builder.
Import Js.

(** An experience or education entry.  [updateExperience] and
    [updateEducation] write a property whose name is computed from a
    [string] argument, so an entry is kept as the object it is at run time:
    a finite map from property names to strings.  The interface lists the
    properties [id], [company]/[school], [position]/[degree], [startDate],
    [endDate] and [description]. *)
Abbreviation Entry := (gmap string string).

Record PersonalInfo := {
  fullName : string;
  email : string;
  phone : string;
  location : string;
  summary : string;
}.

Record ResumeContent := {
  personalInfo : PersonalInfo;
  experience : list Entry;
  education : list Entry;
  skills : list string;
}.

(** The literal that initialises the state and that [fetchResume] falls
    back to. *)
Definition emptyContent : ResumeContent :=
  {| personalInfo := {| fullName := ""; email := ""; phone := "";
                        location := ""; summary := "" |};
     experience := []; education := []; skills := [] |}.

(** The JavaScript value of a content structure, which is also the
    document that [content as any] sends to the [jsonb] column. *)
Definition entryJson (e : Entry) : Json := JObj (JStr <$> e).

Definition personalInfoJson (p : PersonalInfo) : Json :=
  JObj {[ "fullName" := JStr (fullName p); "email" := JStr (email p);
          "phone" := JStr (phone p); "location" := JStr (location p);
          "summary" := JStr (summary p) ]}.

Definition toJson (c : ResumeContent) : Json :=
  JObj {[ "personalInfo" := personalInfoJson (personalInfo c);
          "experience" := JArr (entryJson <$> experience c);
          "education" := JArr (entryJson <$> education c);
          "skills" := JArr (JStr <$> skills c) ]}.

(** ** Handlers on the content

    Each handler is a closure over the [content] of the current render and
    ends in one [setContent]; the functions below give the argument of
    that call.  [crypto.randomUUID()] is the parameter [uuid]. *)

Definition newExp (uuid : string) : Entry :=
  {[ "id" := uuid; "company" := ""; "position" := ""; "startDate" := "";
     "endDate" := ""; "description" := "" ]}.

Definition newEdu (uuid : string) : Entry :=
  {[ "id" := uuid; "school" := ""; "degree" := ""; "startDate" := "";
     "endDate" := ""; "description" := "" ]}.

(** [exp.id === id] *)
Definition has_id (id : string) (e : Entry) : Prop := e !! "id" = Some id.

#[global] Instance has_id_dec id e : Decision (has_id id e) :=
  decide (e !! "id" = Some id).

(** [exp.id === id ? { ...exp, [field]: value } : exp] *)
Definition patchEntry (id field value : string) (e : Entry) : Entry :=
  if decide (has_id id e) then <[field := value]> e else e.

Definition addExperience (uuid : string) (content : ResumeContent)
    : ResumeContent :=
  {| personalInfo := personalInfo content;
     experience := experience content ++ [newExp uuid];
     education := education content;
     skills := skills content |}.

Definition updateExperience (id field value : string)
    (content : ResumeContent) : ResumeContent :=
  {| personalInfo := personalInfo content;
     experience := patchEntry id field value <$> experience content;
     education := education content;
     skills := skills content |}.

Definition removeExperience (id : string) (content : ResumeContent)
    : ResumeContent :=
  {| personalInfo := personalInfo content;
     experience := filter (λ exp, ¬ has_id id exp) (experience content);
     education := education content;
     skills := skills content |}.

Definition addEducation (uuid : string) (content : ResumeContent)
    : ResumeContent :=
  {| personalInfo := personalInfo content;
     experience := experience content;
     education := education content ++ [newEdu uuid];
     skills := skills content |}.

Definition updateEducation (id field value : string)
    (content : ResumeContent) : ResumeContent :=
  {| personalInfo := personalInfo content;
     experience := experience content;
     education := patchEntry id field value <$> education content;
     skills := skills content |}.

Definition removeEducation (id : string) (content : ResumeContent)
    : ResumeContent :=
  {| personalInfo := personalInfo content;
     experience := experience content;
     education := filter (λ edu, ¬ has_id id edu) (education content);
     skills := skills content |}.

Definition addSkill (content : ResumeContent) : ResumeContent :=
  {| personalInfo := personalInfo content;
     experience := experience content;
     education := education content;
     skills := skills content ++ [""] |}.

(** [newSkills[index] = value] on a copy of the array, for an index that
    is a natural number (the handler is bound to the positions that
    [content.skills.map] renders).  Inside the array the element is
    replaced; at its end the value is appended; further out JavaScript grows
    the array and leaves empty slots, which a list of strings cannot hold:
    there the model gives no result. *)
Definition updateSkill (index : nat) (value : string)
    (content : ResumeContent) : option ResumeContent :=
  if decide (index < length (skills content))%nat then
    Some {| personalInfo := personalInfo content;
            experience := experience content;
            education := education content;
            skills := <[index := value]> (skills content) |}
  else if decide (index = length (skills content)) then
    Some {| personalInfo := personalInfo content;
            experience := experience content;
            education := education content;
            skills := skills content ++ [value] |}
  else None.

(** [array.filter((x, i) => keep x i)] *)
Fixpoint filter_indexed {A} (keep : A → nat → bool) (i : nat) (l : list A)
    : list A :=
  match l with
  | [] => []
  | x :: rest =>
      if keep x i then x :: filter_indexed keep (S i) rest
      else filter_indexed keep (S i) rest
  end.

Definition removeSkill (index : nat) (content : ResumeContent)
    : ResumeContent :=
  {| personalInfo := personalInfo content;
     experience := experience content;
     education := education content;
     skills := filter_indexed (λ _ i, negb (i =? index)%nat) 0
                 (skills content) |}.

(** ** The component state *)

Record State := {
  isLoading : bool;
  isSaving : bool;
  title : string;
  content : Json;
}.

Definition initial : State :=
  {| isLoading := true; isSaving := false; title := "Untitled Resume";
     content := toJson emptyContent |}.

Definition setIsLoading (b : bool) (s : State) : State :=
  {| isLoading := b; isSaving := isSaving s; title := title s;
     content := content s |}.
Definition setIsSaving (b : bool) (s : State) : State :=
  {| isLoading := isLoading s; isSaving := b; title := title s;
     content := content s |}.
Definition setTitle (t : string) (s : State) : State :=
  {| isLoading := isLoading s; isSaving := isSaving s; title := t;
     content := content s |}.

(** [setContent] as [fetchResume] uses it: the value read from the row is
    stored as it is, the cast to [ResumeContent] checks nothing. *)
Definition setContentUnchecked (v : Json) (s : State) : State :=
  {| isLoading := isLoading s; isSaving := isSaving s; title := title s;
     content := v |}.
(** [setContent] as the handlers use it. *)
Definition setContent (c : ResumeContent) (s : State) : State :=
  setContentUnchecked (toJson c) s.

(** The session is ready when it is neither loading nor saving. *)
Definition ready (s : State) : Prop :=
  isLoading s = false ∧ isSaving s = false.

Inductive Effect :=
  | Toast (heading description : string) (destructive : bool)
  | Navigate (path : string).

(** ** [fetchResume] *)

(** The continuation of [fetchResume] after the [await]. *)
Definition fetchResume_finish (response : Sql.Response Resumes.Row)
    (s : State) : State * list Effect :=
  match response with
  | Sql.Ok data =>
      let s := setTitle (Resumes.title data) s in
      let s := setContentUnchecked
                 (or_else (Resumes.content data) (toJson emptyContent)) s in
      (setIsLoading false s, [])
  | Sql.Failure _ =>
      (setIsLoading false s,
       [Toast "Error" "Failed to load resume" true; Navigate "/dashboard"])
  end.

(** [supabase.from("resumes").select("*").eq("id", id).single()] *)
Definition fetchResume_query (uid : option string) (id : string)
    (table : list Resumes.Row) : Sql.Response Resumes.Row :=
  Sql.single
    (Resumes.select uid (λ r, bool_decide (Resumes.id r = id)) table).

Definition fetchResume (uid fault : option string) (id : string)
    (table : list Resumes.Row) (s : State) : State * list Effect :=
  fetchResume_finish (Net.request fault (fetchResume_query uid id table)) s.

(** ** [saveResume] *)

(** [{ title, content, updated_at: new Date().toISOString() }], with the
    reading [clientNow] of the browser's clock. *)
Definition saveResume_set (s : State) (clientNow : Z) (r : Resumes.Row)
    : Resumes.Row :=
  {| Resumes.id := Resumes.id r; Resumes.user_id := Resumes.user_id r;
     Resumes.title := title s;
     Resumes.template_id := Resumes.template_id r;
     Resumes.content := content s;
     Resumes.is_public := Resumes.is_public r;
     Resumes.created_at := Resumes.created_at r;
     Resumes.updated_at := clientNow |}.

(** [supabase.from("resumes").update({...}).eq("id", id)] *)
Definition saveResume_query (uid : option string) (id : string)
    (clientNow now : Z) (s : State) (table : list Resumes.Row)
    : Sql.Response (list Resumes.Row) :=
  Resumes.update uid now (λ r, bool_decide (Resumes.id r = id))
    (saveResume_set s clientNow) table.

(** Up to the [await]. *)
Definition saveResume_start (s : State) : State := setIsSaving true s.

(** After the [await]: the toast of either branch, then [finally]. *)
Definition saveResume_finish {A} (response : Sql.Response A) (s : State)
    : State * list Effect :=
  match response with
  | Sql.Ok _ =>
      (setIsSaving false s,
       [Toast "Resume saved" "Your changes have been saved successfully."
          false])
  | Sql.Failure _ =>
      (setIsSaving false s, [Toast "Error" "Failed to save resume" true])
  end.

(** The whole of [saveResume] against a store: new state, new table,
    effects. *)
Definition saveResume (uid fault : option string) (id : string)
    (clientNow now : Z) (table : list Resumes.Row) (s : State)
    : State * list Resumes.Row * list Effect :=
  let saving := saveResume_start s in
  let response :=
    Net.request fault (saveResume_query uid id clientNow now saving table) in
  let table' :=
    match response with Sql.Ok t => t | Sql.Failure _ => table end in
  let '(s', effects) := saveResume_finish response saving in
  (s', table', effects).

End Builder.

(* ===================================================================== *)
(** * The resume list ([Dashboard.tsx]) *)
(* ===================================================================== *)

Module Dashboard.

(** The part of the component state that [fetchResumes] writes; the
    profile slot belongs to [fetchProfile]. *)
Record State := {
  resumes : list Resumes.Row;
  isLoading : bool;
}.

Definition initial : State := {| resumes := []; isLoading := true |}.

Inductive Effect := Toast (heading description : string) (destructive : bool).

(** [supabase.from("resumes").select("*")
      .order("updated_at", { ascending: false })]: no filter of its own,
    the rows are those the select policy lets the caller see. *)
Definition fetchResumes_query (uid : option string)
    (table : list Resumes.Row) : Sql.Response (list Resumes.Row) :=
  Sql.Ok
    (Sql.order_by
       (λ a b, Sql.desc (Resumes.updated_at a) (Resumes.updated_at b))
       (Resumes.select uid (λ _, true) table)).

Definition fetchResumes (uid fault : option string)
    (table : list Resumes.Row) (s : State) : State * list Effect :=
  match Net.request fault (fetchResumes_query uid table) with
  | Sql.Ok data => ({| resumes := data; isLoading := false |}, [])
  | Sql.Failure _ =>
      ({| resumes := resumes s; isLoading := false |},
       [Toast "Error" "Failed to fetch resumes" true])
  end.

End Dashboard.

(* ===================================================================== *)
(** * The template gallery ([TemplateGallery.tsx]) *)
(* ===================================================================== *)

Module TemplateGallery.
Import Js.

Record State := {
  templates : list Templates.Row;
  filteredTemplates : list Templates.Row;
  searchTerm : string;
  selectedCategory : string;
  isLoading : bool;
}.

Definition initial : State :=
  {| templates := []; filteredTemplates := []; searchTerm := "";
     selectedCategory := "all"; isLoading := true |}.

Inductive Effect := Toast (heading description : string) (destructive : bool).

(** [supabase.from("resume_templates").select("*")
      .order("downloads", { ascending: false })] *)
Definition fetchTemplates_query (uid : option string)
    (table : list Templates.Row) : Sql.Response (list Templates.Row) :=
  Sql.Ok
    (Sql.order_by
       (λ a b, Sql.desc_nulls_first (Templates.downloads a)
                 (Templates.downloads b))
       (Templates.select uid table)).

Definition fetchTemplates (uid fault : option string)
    (table : list Templates.Row) (s : State) : State * list Effect :=
  match Net.request fault (fetchTemplates_query uid table) with
  | Sql.Ok data =>
      ({| templates := data; filteredTemplates := filteredTemplates s;
          searchTerm := searchTerm s;
          selectedCategory := selectedCategory s; isLoading := false |}, [])
  | Sql.Failure _ =>
      ({| templates := templates s; filteredTemplates := filteredTemplates s;
          searchTerm := searchTerm s;
          selectedCategory := selectedCategory s; isLoading := false |},
       [Toast "Error" "Failed to fetch templates" true])
  end.

(** [template.category.toLowerCase() === selectedCategory.toLowerCase()] *)
Definition in_category (selected : string) (t : Templates.Row) : bool :=
  String.eqb (toLowerCase (Templates.category t)) (toLowerCase selected).

(** [template.name.toLowerCase().includes(searchTerm.toLowerCase()) ||
     template.category.toLowerCase().includes(searchTerm.toLowerCase())] *)
Definition matches (term : string) (t : Templates.Row) : bool :=
  includes (toLowerCase (Templates.name t)) (toLowerCase term) ||
  includes (toLowerCase (Templates.category t)) (toLowerCase term).

(** The list that [filterTemplates] hands to [setFilteredTemplates]. *)
Definition filtered (s : State) : list Templates.Row :=
  let filtered := templates s in
  let filtered :=
    if negb (String.eqb (selectedCategory s) "all")
    then filter (λ t, in_category (selectedCategory s) t) filtered
    else filtered in
  let filtered :=
    if negb (String.eqb (searchTerm s) "")
    then filter (λ t, matches (searchTerm s) t) filtered
    else filtered in
  filtered.

Definition filterTemplates (s : State) : State :=
  {| templates := templates s; filteredTemplates := filtered s;
     searchTerm := searchTerm s; selectedCategory := selectedCategory s;
     isLoading := isLoading s |}.

Definition setSelectedCategory (c : string) (s : State) : State :=
  {| templates := templates s; filteredTemplates := filteredTemplates s;
     searchTerm := searchTerm s; selectedCategory := c;
     isLoading := isLoading s |}.

Definition setSearchTerm (term : string) (s : State) : State :=
  {| templates := templates s; filteredTemplates := filteredTemplates s;
     searchTerm := term; selectedCategory := selectedCategory s;
     isLoading := isLoading s |}.

(** The gallery once the catalog has been fetched from [table] and the
    effect on [templates], [searchTerm] and [selectedCategory] has run. *)
Definition shown (uid : option string) (table : list Templates.Row)
    (selected term : string) : list Templates.Row :=
  let s := fst (fetchTemplates uid None table initial) in
  filteredTemplates
    (filterTemplates (setSearchTerm term (setSelectedCategory selected s))).

End TemplateGallery.

(* ===================================================================== *)
(** * Creating and deleting resumes, the profile ([Dashboard.tsx]) *)
(* ===================================================================== *)

Module DashboardActions.

Inductive Effect :=
  | Toast (heading description : string) (destructive : bool)
  | Navigate (path : string)
  | ConsoleError (message : string).

(** The fully spelled out empty content that both create paths send. *)
Definition blank : Js.Json := Builder.toJson Builder.emptyContent.

(** [createNewResume]; [uid] is the user of [supabase.auth.getUser()],
    who is also the caller that the policies see. *)
Definition createNewResume (uid fault : option string) (new_id : string)
    (now : Z) (table : list Resumes.Row)
    : list Resumes.Row * list Effect :=
  match uid with
  | None => (table, [])
  | Some user =>
      match Net.request fault
              (Resumes.insert_returning uid
                 (Resumes.inserted new_id now user "New Resume"
                    "modern-minimal" blank) table) with
      | Sql.Ok (table', data) =>
          (table',
           [Toast "Resume created!" "Your new resume is ready to edit." false;
            Navigate ("/builder/" +:+ Resumes.id data)])
      | Sql.Failure _ =>
          (table, [Toast "Error" "Failed to create resume" true])
      end
  end.

(** [deleteResume]: on success the entry is also taken out of the list in
    memory. *)
Definition deleteResume (uid fault : option string) (id : string)
    (table : list Resumes.Row) (s : Dashboard.State)
    : Dashboard.State * list Resumes.Row * list Effect :=
  match Net.request fault
          (Resumes.delete uid (λ r, bool_decide (Resumes.id r = id)) table) with
  | Sql.Ok table' =>
      ({| Dashboard.resumes :=
            filter (λ resume, Resumes.id resume ≠ id) (Dashboard.resumes s);
          Dashboard.isLoading := Dashboard.isLoading s |},
       table',
       [Toast "Resume deleted" "Your resume has been permanently deleted."
          false])
  | Sql.Failure _ =>
      (s, table, [Toast "Error" "Failed to delete resume" true])
  end.

(** The two columns that [fetchProfile] selects. *)
Record Profile := {
  display_name : option string;
  subscription_tier : option string;
}.

(** [supabase.from("profiles").select("display_name, subscription_tier")
      .eq("user_id", user.id).single()] *)
Definition fetchProfile_query (uid : option string) (user : string)
    (profiles : list Profiles.Row) : Sql.Response Profile :=
  Sql.single
    ((λ r, {| display_name := Profiles.display_name r;
              subscription_tier := Profiles.subscription_tier r |}) <$>
     Profiles.select uid (λ r, bool_decide (Profiles.user_id r = user))
       profiles).

(** [fetchProfile], on the [profile] slot of the component state. *)
Definition fetchProfile (uid fault : option string)
    (profiles : list Profiles.Row) (profile : option Profile)
    : option Profile * list Effect :=
  match uid with
  | None => (profile, [])
  | Some user =>
      match Net.request fault (fetchProfile_query uid user profiles) with
      | Sql.Ok data => (Some data, [])
      | Sql.Failure _ => (profile, [ConsoleError "Error fetching profile:"])
      end
  end.

End DashboardActions.

(* ===================================================================== *)
(** * Categories and template selection ([TemplateGallery.tsx]) *)
(* ===================================================================== *)

Module GalleryActions.

Inductive Effect :=
  | Toast (heading description : string) (destructive : bool)
  | Navigate (path : string).



(** [useTemplate(templateId)] *)
Definition useTemplate (uid fault : option string) (templateId : string)
    (new_id : string) (now : Z) (table : list Resumes.Row)
    : list Resumes.Row * list Effect :=
  match uid with
  | None => (table, [Navigate "/auth"])
  | Some user =>
      match Net.request fault
              (Resumes.insert_returning uid
                 (Resumes.inserted new_id now user "New Resume" templateId
                    DashboardActions.blank) table) with
      | Sql.Ok (table', data) =>
          (table',
           [Toast "Template selected!" "Your new resume is ready to edit."
              false;
            Navigate ("/builder/" +:+ Resumes.id data)])
      | Sql.Failure _ =>
          (table,
           [Toast "Error" "Failed to create resume with template" true])
      end
  end.

End GalleryActions.

(* ===================================================================== *)
(** * The specification's wording, for comparison *)
(* ===================================================================== *)

Module Spec.
Import Js.

(** "the templates whose category equals the selected category
    case-insensitively and whose name or category contains the search term
    case-insensitively" *)
Definition template_filter (selected term : string)
    (catalog : list Templates.Row) : list Templates.Row :=
  filter (λ t, TemplateGallery.in_category selected t &&
               TemplateGallery.matches term t) catalog.

(** "the list operation returns exactly the resumes owned by U" *)
Definition owned_resumes (uid : string) (table : list Resumes.Row)
    : list Resumes.Row :=
  filter (λ r, Resumes.user_id r = uid) table.

(** "after load no field of the content structure is undefined" *)
Definition normalized (v : Json) : Prop :=
  is_Some (get v "personalInfo") ∧ is_Some (get v "experience") ∧
  is_Some (get v "education") ∧ is_Some (get v "skills").

End Spec.

(* ===================================================================== *)
(** * Vocabulary of the properties *)
(* ===================================================================== *)

Import Js Builder.

(** ** The content handlers *)

(** What a handler on one section must leave alone. *)
Definition keeps_outside_experience (c c' : ResumeContent) : Prop :=
  personalInfo c' = personalInfo c ∧ education c' = education c ∧
  skills c' = skills c.

Definition keeps_outside_education (c c' : ResumeContent) : Prop :=
  personalInfo c' = personalInfo c ∧ experience c' = experience c ∧
  skills c' = skills c.

Definition keeps_outside_skills (c c' : ResumeContent) : Prop :=
  personalInfo c' = personalInfo c ∧ experience c' = experience c ∧
  education c' = education c.

(** No entry of the sequence carries the identifier. *)
Definition absent (id : string) (entries : list Entry) : Prop :=
  Forall (λ e, ¬ has_id id e) entries.

(** Entries that do not carry [id] stay where they are. *)
Definition untouched_in_place (id : string) (before after : list Entry) : Prop :=
  ∀ i e, before !! i = Some e → ¬ has_id id e → after !! i = Some e.

(** [e'] is [e] with [value] written to [field] and nothing else
    changed. *)
Definition written (field value : string) (e e' : Entry) : Prop :=
  e' !! field = Some value ∧ ∀ k, k ≠ field → e' !! k = e !! k.

(** ** The store and the session *)

(** The request of a save came back with an error. *)
Definition save_failed {A} (response : Sql.Response A) : Prop :=
  match response with Sql.Failure _ => True | Sql.Ok _ => False end.

(** The row that a save by [uid] leaves in the place of [r]: the caller's
    [updated_at] is overwritten by the trigger, so any value stands for
    it. *)
Definition saved (uid : option string) (id : string) (now : Z) (s : State)
    (r : Resumes.Row) : Resumes.Row :=
  if bool_decide (Resumes.id r = id) && Resumes.update_using uid r
  then Sql.update_updated_at_column now (saveResume_set s 0 r)
  else r.

(** The rows the select policy shows to [uid]: its own and the public
    ones. *)
Definition visible_to (uid : option string) (r : Resumes.Row) : Prop :=
  uid = Some (Resumes.user_id r) ∨ Resumes.is_public r = Some true.

(** [a] is listed no later than [b]: it was updated at the same time or
    more recently. *)
Definition newer_first (a b : Resumes.Row) : Prop :=
  (Resumes.updated_at b ≤ Resumes.updated_at a)%Z.

(** [a] may stand before [b] in the fetched catalog: no fewer downloads,
    a [NULL] count first. *)
Definition most_downloaded_first (a b : Templates.Row) : Prop :=
  Sql.desc_nulls_first (Templates.downloads a) (Templates.downloads b) = true.

(** ** Sample data *)

(** A content with two experience entries, one education entry and two
    skills. *)
Definition sample_content : ResumeContent :=
  {| personalInfo := {| fullName := "Ada Lovelace"; email := "ada@example.org";
                        phone := ""; location := "London"; summary := "" |};
     experience := [ <["company" := "Analytical Engines"]> (newExp "e-1");
                     <["company" := "Royal Society"]> (newExp "e-2") ];
     education := [ <["school" := "Home"]> (newEdu "s-1") ];
     skills := ["mathematics"; "notes"] |}.

(** A session that is ready and holds [sample_content]. *)
Definition ready_session : State :=
  {| isLoading := false; isSaving := false; title := "CV";
     content := toJson sample_content |}.

(** A resume as [createNewResume] inserts it, up to title and template. *)
Definition a_resume (key owner : string) (public : bool) (stamp : Z)
    : Resumes.Row :=
  {| Resumes.id := key; Resumes.user_id := owner;
     Resumes.title := "Untitled Resume";
     Resumes.template_id := "modern-minimal";
     Resumes.content := toJson emptyContent;
     Resumes.is_public := Some public;
     Resumes.created_at := stamp; Resumes.updated_at := stamp |}.

Definition a_profile (key owner : string) (stamp : Z) : Profiles.Row :=
  {| Profiles.id := key; Profiles.user_id := owner;
     Profiles.display_name := Some "Ada"; Profiles.avatar_url := None;
     Profiles.subscription_tier := Some "free";
     Profiles.created_at := stamp; Profiles.updated_at := stamp |}.

(** Alice's private resume and bob's public one. *)
Definition two_owners : list Resumes.Row :=
  [ a_resume "r-1" "alice" false 1000; a_resume "r-2" "bob" true 3000 ].

(** The gallery over the seeded catalog, with a category chosen and a
    search term typed. *)
Definition gallery_session : TemplateGallery.State :=
  TemplateGallery.setSearchTerm "edge"
    (TemplateGallery.setSelectedCategory "Creative"
       (TemplateGallery.fetchTemplates None None (Templates.seed 0)
          TemplateGallery.initial).1).

(** The two columns of a profile row that the dashboard reads. *)
Definition shown_profile (r : Profiles.Row) : DashboardActions.Profile :=
  {| DashboardActions.display_name := Profiles.display_name r;
     DashboardActions.subscription_tier := Profiles.subscription_tier r |}.

(** A new identity that signed up with a display name. *)
Definition grace : Profiles.AuthUser :=
  {| Profiles.auth_id := "grace";
     Profiles.raw_user_meta_data :=
       Some (JObj {[ "display_name" := JStr "Grace" ]}) |}.

(** [SET subscription_tier = tier] *)
Definition set_tier (tier : option string) (r : Profiles.Row) : Profiles.Row :=
  {| Profiles.id := Profiles.id r; Profiles.user_id := Profiles.user_id r;
     Profiles.display_name := Profiles.display_name r;
     Profiles.avatar_url := Profiles.avatar_url r;
     Profiles.subscription_tier := tier;
     Profiles.created_at := Profiles.created_at r;
     Profiles.updated_at := Profiles.updated_at r |}.

(** Two [SET] clauses: [SET title = t] and [SET user_id = owner]. *)
Definition rename_to (t : string) (r : Resumes.Row) : Resumes.Row :=
  {| Resumes.id := Resumes.id r; Resumes.user_id := Resumes.user_id r;
     Resumes.title := t; Resumes.template_id := Resumes.template_id r;
     Resumes.content := Resumes.content r;
     Resumes.is_public := Resumes.is_public r;
     Resumes.created_at := Resumes.created_at r;
     Resumes.updated_at := Resumes.updated_at r |}.

Definition give_to (owner : string) (r : Resumes.Row) : Resumes.Row :=
  {| Resumes.id := Resumes.id r; Resumes.user_id := owner;
     Resumes.title := Resumes.title r;
     Resumes.template_id := Resumes.template_id r;
     Resumes.content := Resumes.content r;
     Resumes.is_public := Resumes.is_public r;
     Resumes.created_at := Resumes.created_at r;
     Resumes.updated_at := Resumes.updated_at r |}.

(* ===================================================================== *)
(** * Properties of the content handlers *)
(* ===================================================================== *)

Section EntryLists.
Implicit Types (entries : list Entry) (id field value : string).

Lemma newExp_has_id uuid : has_id uuid (newExp uuid).
Proof. unfold has_id, newExp. apply lookup_insert_eq. Qed.

Lemma newEdu_has_id uuid : has_id uuid (newEdu uuid).
Proof. unfold has_id, newEdu. apply lookup_insert_eq. Qed.

Lemma patchEntry_other id field value (e : Entry) :
  ¬ has_id id e → patchEntry id field value e = e.
Proof. intros Hne. unfold patchEntry. by destruct (decide (has_id id e)). Qed.

Lemma patch_absent id field value entries :
  absent id entries → patchEntry id field value <$> entries = entries.
Proof.
  induction 1 as [|e entries He _ IH]; [done|].
  by rewrite fmap_cons, patchEntry_other, IH.
Qed.

Lemma drop_absent id entries :
  absent id entries → filter (λ e, ¬ has_id id e) entries = entries.
Proof.
  induction 1 as [|e entries He _ IH]; [done|].
  by rewrite filter_cons_True, IH.
Qed.

Lemma patch_in_place id field value entries :
  untouched_in_place id entries (patchEntry id field value <$> entries).
Proof.
  intros i e Hi Hne. rewrite list_lookup_fmap, Hi. simpl.
  by rewrite patchEntry_other.
Qed.

Lemma append_then_drop uuid (fresh : Entry) entries :
  has_id uuid fresh → absent uuid entries →
  filter (λ e, ¬ has_id uuid e) (entries ++ [fresh])%list = entries.
Proof.
  intros Hnew Hold. rewrite filter_app, drop_absent by done.
  rewrite filter_cons_False by (intros Hn; by apply Hn).
  by rewrite filter_nil, app_nil_r.
Qed.
End EntryLists.

Lemma content_eq (c c' : ResumeContent) :
  personalInfo c = personalInfo c' → experience c = experience c' →
  education c = education c' → skills c = skills c' → c = c'.
Proof. destruct c, c'; simpl; by intros -> -> -> ->. Qed.

(** C6.  Appending an experience entry under a freshly generated identifier
    and then removing the entry by that identifier gives back the experience
    sequence from before the append, and with it the whole content. *)
Theorem add_then_remove_experience (content : ResumeContent) (uuid : string) :
  absent uuid (experience content) →
  experience (removeExperience uuid (addExperience uuid content))
    = experience content
  ∧ removeExperience uuid (addExperience uuid content) = content.
Proof.
  intros Hfresh.
  assert (experience (removeExperience uuid (addExperience uuid content))
            = experience content) as Hexp.
  { simpl. apply append_then_drop; [apply newExp_has_id | done]. }
  split; [done|]. by apply content_eq.
Qed.

Lemma add_then_remove_experience_witness :
  experience (removeExperience "e-3" (addExperience "e-3" sample_content))
    = experience sample_content
  ∧ removeExperience "e-3" (addExperience "e-3" sample_content)
    = sample_content.
Proof.
  apply (add_then_remove_experience sample_content "e-3").
  unfold absent, sample_content; simpl.
  repeat constructor; unfold has_id; vm_compute; discriminate.
Defined.

(** Without freshness the law fails: removal takes every entry that carries
    the identifier. *)
Example add_then_remove_collision :
  experience (removeExperience "e-1" (addExperience "e-1" sample_content))
    ≠ experience sample_content.
Proof. vm_compute. discriminate. Qed.

(** C9.  Every handler on the content touches one section only: the
    experience handlers keep personalInfo, education and skills, the
    education handlers keep personalInfo, experience and skills, the skills
    handlers keep personalInfo, experience and education; and storing the
    outcome with [setContent] keeps the title (and the two flags). *)
Theorem handlers_touch_one_section
    (content : ResumeContent) (uuid id field value : string) (index : nat) :
  ( keeps_outside_experience content (addExperience uuid content) ∧
    keeps_outside_experience content (updateExperience id field value content) ∧
    keeps_outside_experience content (removeExperience id content) ) ∧
  ( keeps_outside_education content (addEducation uuid content) ∧
    keeps_outside_education content (updateEducation id field value content) ∧
    keeps_outside_education content (removeEducation id content) ) ∧
  ( keeps_outside_skills content (addSkill content) ∧
    (∀ content', updateSkill index value content = Some content' →
       keeps_outside_skills content content') ∧
    keeps_outside_skills content (removeSkill index content) ) ∧
  ( ∀ (next : ResumeContent) (s : State),
      title (setContent next s) = title s ∧
      isLoading (setContent next s) = isLoading s ∧
      isSaving (setContent next s) = isSaving s ).
Proof.
  assert (∀ content', updateSkill index value content = Some content' →
            keeps_outside_skills content content') as Hskill.
  { intros content' Hupd. unfold updateSkill in Hupd.
    destruct (decide (index < length (skills content))%nat);
      [by injection Hupd as <-|].
    destruct (decide (index = length (skills content)));
      [by injection Hupd as <-|done]. }
  unfold keeps_outside_experience, keeps_outside_education,
    keeps_outside_skills in *.
  split_and!; try reflexivity; try exact Hskill.
  all: by intros.
Qed.

Lemma handlers_touch_one_section_witness :
  updateSkill 1 "logic" sample_content
    = Some {| personalInfo := personalInfo sample_content;
              experience := experience sample_content;
              education := education sample_content;
              skills := ["mathematics"; "logic"] |}
  ∧ keeps_outside_skills sample_content
      {| personalInfo := personalInfo sample_content;
         experience := experience sample_content;
         education := education sample_content;
         skills := ["mathematics"; "logic"] |}.
Proof.
  split; [reflexivity|].
  destruct (handlers_touch_one_section sample_content "" "" "" "logic" 1%nat)
    as (_ & _ & (_ & Hupdate & _) & _).
  apply Hupdate. reflexivity.
Defined.

(** Within the rendered positions [updateSkill] always has a result, and
    so it has at the end of the array. *)
Lemma updateSkill_in_range index value content :
  (index < length (skills content))%nat →
  ∃ content', updateSkill index value content = Some content' ∧
              skills content' = <[index := value]> (skills content).
Proof.
  intros Hlt. unfold updateSkill.
  destruct (decide (index < length (skills content))%nat); [|done].
  by eexists.
Qed.

Lemma updateSkill_at_end value content :
  ∃ content', updateSkill (length (skills content)) value content
                = Some content' ∧
              skills content' = (skills content ++ [value])%list.
Proof.
  unfold updateSkill.
  destruct (decide (length (skills content) < length (skills content))%nat);
    [lia|].
  destruct (decide (length (skills content) = length (skills content)));
    [|done].
  by eexists.
Qed.

(** [filter((_, i) => i !== index)] removes the element at [index]. *)
Lemma filter_indexed_delete {A} (l : list A) (index base : nat) :
  filter_indexed (λ _ i, negb (i =? base + index)%nat) base l = delete index l.
Proof.
  revert index base. induction l as [|x l IH]; intros index base; [done|].
  simpl. destruct index as [|index].
  - rewrite Nat.add_0_r, Nat.eqb_refl. simpl.
    clear IH. generalize (Nat.lt_succ_diag_r base). generalize (S base) as j.
    induction l as [|y l IH]; intros j Hj; [done|]. simpl.
    destruct (Nat.eqb_spec j base) as [->|_]; [lia|]. simpl.
    f_equal. apply IH. lia.
  - destruct (Nat.eqb_spec base (base + S index)) as [Heq|_]; [lia|]. simpl.
    f_equal. rewrite <- (IH index (S base)).
    by replace (S base + index)%nat with (base + S index)%nat by lia.
Qed.

Lemma removeSkill_delete index content :
  skills (removeSkill index content) = delete index (skills content).
Proof. apply (filter_indexed_delete (skills content) index 0). Qed.

(** C10.  On experience and on education, update and remove by an identifier
    that no entry carries change nothing at all; in every case update keeps
    the length of the sequence and leaves each entry with another identifier
    where it is, and remove keeps exactly the entries with another
    identifier, in their order. *)
Theorem keyed_handlers (content : ResumeContent) (id field value : string) :
  ( absent id (experience content) →
      updateExperience id field value content = content ∧
      removeExperience id content = content ) ∧
  ( absent id (education content) →
      updateEducation id field value content = content ∧
      removeEducation id content = content ) ∧
  ( length (experience (updateExperience id field value content))
      = length (experience content) ∧
    untouched_in_place id (experience content)
      (experience (updateExperience id field value content)) ∧
    length (education (updateEducation id field value content))
      = length (education content) ∧
    untouched_in_place id (education content)
      (education (updateEducation id field value content)) ) ∧
  ( experience (removeExperience id content) `sublist_of` experience content ∧
    (∀ e, e ∈ experience (removeExperience id content) ↔
          e ∈ experience content ∧ ¬ has_id id e) ∧
    filter (λ e, ¬ has_id id e) (experience (removeExperience id content))
      = filter (λ e, ¬ has_id id e) (experience content) ∧
    education (removeEducation id content) `sublist_of` education content ∧
    (∀ e, e ∈ education (removeEducation id content) ↔
          e ∈ education content ∧ ¬ has_id id e) ∧
    filter (λ e, ¬ has_id id e) (education (removeEducation id content))
      = filter (λ e, ¬ has_id id e) (education content) ).
Proof.
  split_and!.
  - intros Habs. split; apply content_eq; simpl; try done.
    + by apply patch_absent.
    + by apply drop_absent.
  - intros Habs. split; apply content_eq; simpl; try done.
    + by apply patch_absent.
    + by apply drop_absent.
  - simpl. by rewrite length_fmap.
  - apply patch_in_place.
  - simpl. by rewrite length_fmap.
  - apply patch_in_place.
  - apply sublist_filter.
  - intros e. simpl. rewrite list_elem_of_filter. tauto.
  - simpl. rewrite list_filter_filter. apply list_filter_iff. tauto.
  - apply sublist_filter.
  - intros e. simpl. rewrite list_elem_of_filter. tauto.
  - simpl. rewrite list_filter_filter. apply list_filter_iff. tauto.
Qed.

Lemma keyed_handlers_witness :
  ( updateExperience "e-9" "company" "Acme" sample_content = sample_content ∧
    removeExperience "e-9" sample_content = sample_content ) ∧
  ( updateEducation "s-9" "school" "Acme" sample_content = sample_content ∧
    removeEducation "s-9" sample_content = sample_content ).
Proof.
  split.
  - apply (keyed_handlers sample_content "e-9" "company" "Acme").
    unfold absent, sample_content; simpl.
    repeat constructor; unfold has_id; vm_compute; discriminate.
  - apply (keyed_handlers sample_content "s-9" "school" "Acme").
    unfold absent, sample_content; simpl.
    repeat constructor; unfold has_id; vm_compute; discriminate.
Defined.

(** A present identifier: the carrier is rewritten, its neighbour is not. *)
Example updateExperience_present :
  experience (updateExperience "e-1" "position" "Analyst" sample_content)
  = [ <["position" := "Analyst"]>
        (<["company" := "Analytical Engines"]> (newExp "e-1"));
      <["company" := "Royal Society"]> (newExp "e-2") ].
Proof. vm_compute. reflexivity. Qed.

(* ===================================================================== *)
(** * Properties of updates in the store *)
(* ===================================================================== *)

Section UpdateFacts.
Context {Row : Type}.
Variables (using_expr check_expr : Row → bool).
Variable before_update : Row → Row.
Variable constraints : list Row → bool.
Variables (where_clause : Row → bool) (set_clause : Row → Row).

Local Abbreviation row_step :=
  (Sql.update_row using_expr check_expr before_update where_clause set_clause).
Local Abbreviation statement :=
  (Sql.update using_expr check_expr before_update constraints
     where_clause set_clause).

Local Abbreviation targeted := (Sql.targeted where_clause using_expr).

Lemma update_row_inv OLD NEW :
  row_step OLD = Some NEW →
  (targeted OLD ∧ NEW = before_update (set_clause OLD) ∧ check_expr NEW = true)
  ∨ (¬ targeted OLD ∧ NEW = OLD).
Proof.
  unfold Sql.update_row, Sql.targeted.
  destruct (where_clause OLD && using_expr OLD); simpl.
  - destruct (check_expr (before_update (set_clause OLD))) eqn:Hck; [|done].
    intros [= <-]. left. by rewrite Hck.
  - intros [= <-]. right. split; [discriminate | done].
Qed.

Lemma update_Ok_inv table table' :
  statement table = Sql.Ok table' →
  Forall2 (λ OLD NEW, row_step OLD = Some NEW) table table'
  ∧ constraints table' = true.
Proof.
  unfold Sql.update.
  destruct (mapM row_step table) as [rows|] eqn:Hrows; [|done].
  destruct (constraints rows) eqn:Hc; [|done].
  intros [= <-]. split; [by apply mapM_Some_1 | done].
Qed.

Lemma update_rowwise table table' i OLD NEW :
  statement table = Sql.Ok table' →
  table !! i = Some OLD → table' !! i = Some NEW →
  (targeted OLD ∧ NEW = before_update (set_clause OLD) ∧ check_expr NEW = true)
  ∨ (¬ targeted OLD ∧ NEW = OLD).
Proof.
  intros [Hrows _]%update_Ok_inv Hold Hnew.
  apply update_row_inv.
  exact (Forall2_lookup_lr _ _ _ _ _ _ Hrows Hold Hnew).
Qed.

Lemma update_length table table' :
  statement table = Sql.Ok table' → length table' = length table.
Proof. intros [Hrows _]%update_Ok_inv. symmetry. by eapply Forall2_length. Qed.
End UpdateFacts.

(** What reaches the table depends on the [SET] clause only through the
    row that the trigger returns. *)
Lemma update_set_ext {Row} (using_expr check_expr : Row → bool)
    (before_update : Row → Row) (constraints : list Row → bool)
    (where_clause : Row → bool) (set1 set2 : Row → Row) (table : list Row) :
  (∀ r, before_update (set1 r) = before_update (set2 r)) →
  Sql.update using_expr check_expr before_update constraints where_clause
    set1 table
  = Sql.update using_expr check_expr before_update constraints where_clause
    set2 table.
Proof.
  intros Hext. unfold Sql.update.
  rewrite (mapM_ext _
    (Sql.update_row using_expr check_expr before_update where_clause set2));
    [done|].
  intros r. unfold Sql.update_row. by rewrite Hext.
Qed.

(** The caller's [updated_at] does not survive the trigger. *)
Lemma saveResume_set_overwritten (s : State) (c1 c2 now : Z) (r : Resumes.Row) :
  Sql.update_updated_at_column now (saveResume_set s c1 r)
  = Sql.update_updated_at_column now (saveResume_set s c2 r).
Proof. reflexivity. Qed.

(** C2.  Whatever the [SET] clause of an update puts into [updated_at], a
    row of [resumes] or of [profiles] that the update rewrites carries the
    store's time afterwards; and the table that [saveResume] leaves behind
    does not depend on the browser's clock. *)
Theorem updated_at_is_store_time :
  ( ∀ uid now where_clause set_clause table table' i OLD NEW,
      Resumes.update uid now where_clause set_clause table = Sql.Ok table' →
      table !! i = Some OLD → table' !! i = Some NEW →
      where_clause OLD && Resumes.update_using uid OLD = true →
      Resumes.updated_at NEW = now ) ∧
  ( ∀ uid now where_clause set_clause table table' i OLD NEW,
      Profiles.update uid now where_clause set_clause table = Sql.Ok table' →
      table !! i = Some OLD → table' !! i = Some NEW →
      where_clause OLD && Profiles.update_using uid OLD = true →
      Profiles.updated_at NEW = now ) ∧
  ( ∀ uid id clientNow clientNow' now s table,
      saveResume_query uid id clientNow now s table
      = saveResume_query uid id clientNow' now s table ).
Proof.
  split_and!.
  - intros uid now where_clause set_clause table table' i OLD NEW Hup Ho Hn Ht.
    destruct (update_rowwise _ _ _ _ _ _ _ _ _ _ _ Hup Ho Hn)
      as [(_ & -> & _) | (Hnot & _)]; [done | by destruct Hnot].
  - intros uid now where_clause set_clause table table' i OLD NEW Hup Ho Hn Ht.
    destruct (update_rowwise _ _ _ _ _ _ _ _ _ _ _ Hup Ho Hn)
      as [(_ & -> & _) | (Hnot & _)]; [done | by destruct Hnot].
  - intros. unfold saveResume_query, Resumes.update.
    apply update_set_ext. intros r. apply saveResume_set_overwritten.
Qed.

Lemma updated_at_is_store_time_witness :
  Resumes.updated_at
    (Sql.update_updated_at_column 2000
       (saveResume_set initial 1234 (a_resume "r-1" "alice" false 1000)))
  = 2000%Z
  ∧ Profiles.updated_at
      (Sql.update_updated_at_column 2000 (a_profile "p-1" "alice" 1000))
    = 2000%Z.
Proof.
  destruct updated_at_is_store_time as (Hresumes & Hprofiles & _).
  split.
  - apply (Hresumes (Some "alice") 2000%Z (λ _, true)
             (saveResume_set initial 1234)
             [a_resume "r-1" "alice" false 1000]
             [Sql.update_updated_at_column 2000
                (saveResume_set initial 1234
                   (a_resume "r-1" "alice" false 1000))]
             0%nat (a_resume "r-1" "alice" false 1000));
      reflexivity.
  - apply (Hprofiles (Some "alice") 2000%Z (λ _, true) (λ r, r)
             [a_profile "p-1" "alice" 1000]
             [Sql.update_updated_at_column 2000
                (a_profile "p-1" "alice" 1000)]
             0%nat (a_profile "p-1" "alice" 1000));
      reflexivity.
Defined.

(** C3.  An update of [resumes] that the policies let through leaves the
    owner of every row as it was. *)
Theorem resume_owner_immutable
    (uid : option string) (now : Z) (where_clause : Resumes.Row → bool)
    (set_clause : Resumes.Row → Resumes.Row)
    (table table' : list Resumes.Row) :
  Resumes.update uid now where_clause set_clause table = Sql.Ok table' →
  length table' = length table ∧
  ∀ i OLD NEW, table !! i = Some OLD → table' !! i = Some NEW →
    Resumes.user_id NEW = Resumes.user_id OLD.
Proof.
  intros Hup. split; [by eapply update_length|].
  intros i OLD NEW Ho Hn.
  destruct (update_rowwise _ _ _ _ _ _ _ _ _ _ _ Hup Ho Hn)
    as [(Ht & HNEW & Hck) | (_ & ->)]; [|done].
  unfold Sql.targeted in Ht. apply andb_prop in Ht as [_ Husing].
  unfold Resumes.update_check, Resumes.update_using, Resumes.owned_by in *.
  apply bool_decide_eq_true in Husing, Hck. congruence.
Qed.

Lemma resume_owner_immutable_witness :
  Resumes.update (Some "alice") 2000 (λ _, true) (rename_to "CV")
    [a_resume "r-1" "alice" false 1000]
  = Sql.Ok [Sql.update_updated_at_column 2000
              (rename_to "CV" (a_resume "r-1" "alice" false 1000))]
  ∧ Resumes.user_id
      (Sql.update_updated_at_column 2000
         (rename_to "CV" (a_resume "r-1" "alice" false 1000)))
    = Resumes.user_id (a_resume "r-1" "alice" false 1000).
Proof.
  split; [reflexivity|].
  destruct (resume_owner_immutable (Some "alice") 2000%Z (λ _, true)
              (rename_to "CV") [a_resume "r-1" "alice" false 1000]
              [Sql.update_updated_at_column 2000
                 (rename_to "CV" (a_resume "r-1" "alice" false 1000))]
              eq_refl) as [_ Hrows].
  apply (Hrows 0%nat); reflexivity.
Defined.

(** Handing the resume to another identity is refused by the store. *)
Example give_away_refused :
  Resumes.update (Some "alice") 2000 (λ _, true) (give_to "bob")
    [a_resume "r-1" "alice" false 1000]
  = Sql.Failure "new row violates row-level security policy".
Proof. reflexivity. Qed.

(* ===================================================================== *)
(** * The editing session around a save *)
(* ===================================================================== *)

Lemma saveResume_finish_state {A} (response : Sql.Response A) (s : State) :
  fst (saveResume_finish response s) = setIsSaving false s.
Proof. by destruct response. Qed.

Lemma saveResume_unfold uid fault id clientNow now table s :
  let response :=
    Net.request fault
      (saveResume_query uid id clientNow now (saveResume_start s) table) in
  saveResume uid fault id clientNow now table s
  = (setIsSaving false (saveResume_start s),
     match response with Sql.Ok t => t | Sql.Failure _ => table end,
     snd (saveResume_finish response (saveResume_start s))).
Proof. unfold saveResume. simpl. by destruct (Net.request _ _). Qed.

(** C7.  From the ready state a save passes through saving and comes back
    to ready, whether the store accepts it or not, and the title and the
    content in memory are the ones from before; when the save fails the
    table is the one from before as well and the error toast is the only
    effect. *)
Theorem saveResume_returns_to_ready
    (uid fault : option string) (id : string) (clientNow now : Z)
    (table : list Resumes.Row) (s : State) :
  ready s →
  let response :=
    Net.request fault
      (saveResume_query uid id clientNow now (saveResume_start s) table) in
  let '(s', table', effects) :=
    saveResume uid fault id clientNow now table s in
  isSaving (saveResume_start s) = true ∧
  title (saveResume_start s) = title s ∧
  content (saveResume_start s) = content s ∧
  ready s' ∧ title s' = title s ∧ content s' = content s ∧
  (save_failed response →
     table' = table ∧ effects = [Toast "Error" "Failed to save resume" true]) ∧
  (¬ save_failed response →
     response = Sql.Ok table' ∧
     effects = [Toast "Resume saved"
                  "Your changes have been saved successfully." false]).
Proof.
  intros [Hload Hsave] response.
  rewrite saveResume_unfold. fold response.
  split_and!; try done.
  - destruct response; simpl; [done|]. by intros _.
  - destruct response; simpl; [done|]. intros Hn. by destruct Hn.
Qed.

Lemma saveResume_returns_to_ready_witness :
  let outcome :=
    saveResume (Some "alice") (Some "Failed to fetch") "r-1" 1234 2000
      [a_resume "r-1" "alice" false 1000] ready_session in
  ready outcome.1.1 ∧ title outcome.1.1 = "CV" ∧
  content outcome.1.1 = toJson sample_content ∧
  outcome.1.2 = [a_resume "r-1" "alice" false 1000] ∧
  outcome.2 = [Toast "Error" "Failed to save resume" true].
Proof.
  pose proof (saveResume_returns_to_ready (Some "alice")
                (Some "Failed to fetch") "r-1" 1234%Z 2000%Z
                [a_resume "r-1" "alice" false 1000] ready_session
                (conj eq_refl eq_refl)) as Hsave.
  simpl in Hsave.
  destruct Hsave as (_ & _ & _ & Hready & Htitle & Hcontent & Hfail & _).
  destruct (Hfail I) as [Htable Heffects].
  simpl. split_and!; [exact Hready | exact Htitle | exact Hcontent
                     | exact Htable | exact Heffects].
Defined.

(* ===================================================================== *)
(** * [ORDER BY] *)
(* ===================================================================== *)

Section OrderByFacts.
Context {A : Type} (before : A → A → bool).
Hypothesis before_total : ∀ x y, before x y = false → before y x = true.
Hypothesis before_trans :
  ∀ x y z, before x y = true → before y z = true → before x z = true.

Local Abbreviation precedes := (λ x y, before x y = true).

Lemma place_perm x (l : list A) : Sql.place before x l ≡ₚ x :: l.
Proof.
  induction l as [|y l IH]; simpl; [done|].
  destruct (before x y); [done|].
  rewrite IH. apply Permutation_swap.
Qed.

Lemma order_by_perm (l : list A) : Sql.order_by before l ≡ₚ l.
Proof.
  induction l as [|x l IH]; simpl; [done|].
  by rewrite place_perm, IH.
Qed.

Lemma place_sorted x (l : list A) :
  StronglySorted precedes l → StronglySorted precedes (Sql.place before x l).
Proof.
  induction 1 as [|y l Hsorted IH Hall]; simpl.
  - repeat constructor.
  - destruct (before x y) eqn:Hxy.
    + constructor; [by constructor|].
      constructor; [done|].
      eapply Forall_impl; [exact Hall|]. intros z Hyz. by eapply before_trans.
    + constructor; [done|].
      rewrite place_perm. constructor; [by apply before_total | done].
Qed.

Lemma order_by_sorted (l : list A) :
  StronglySorted precedes (Sql.order_by before l).
Proof.
  induction l as [|x l IH]; simpl; [constructor|]. by apply place_sorted.
Qed.

Lemma elem_of_order_by x (l : list A) : x ∈ Sql.order_by before l ↔ x ∈ l.
Proof. by rewrite order_by_perm. Qed.
End OrderByFacts.

Lemma StronglySorted_weaken {A} (R S : A → A → Prop) (l : list A) :
  (∀ x y, R x y → S x y) → StronglySorted R l → StronglySorted S l.
Proof.
  intros Hsub. induction 1 as [|x l _ IH Hall]; constructor; [done|].
  eapply Forall_impl; [exact Hall | by auto].
Qed.

Lemma desc_total x y : Sql.desc x y = false → Sql.desc y x = true.
Proof. unfold Sql.desc. lia. Qed.

Lemma desc_trans x y z :
  Sql.desc x y = true → Sql.desc y z = true → Sql.desc x z = true.
Proof. unfold Sql.desc. lia. Qed.

Lemma desc_nulls_first_total x y :
  Sql.desc_nulls_first x y = false → Sql.desc_nulls_first y x = true.
Proof. destruct x, y; simpl; try done. lia. Qed.

Lemma desc_nulls_first_trans x y z :
  Sql.desc_nulls_first x y = true → Sql.desc_nulls_first y z = true →
  Sql.desc_nulls_first x z = true.
Proof. destruct x, y, z; simpl; try done. lia. Qed.

(* ===================================================================== *)
(** * The resume list *)
(* ===================================================================== *)

Lemma select_policy_visible uid r :
  Resumes.select_policy uid r = true ↔ visible_to uid r.
Proof.
  unfold Resumes.select_policy, Resumes.owned_by, visible_to.
  rewrite orb_true_iff, !bool_decide_eq_true. done.
Qed.

(** C4, as the code has it.  When the request goes through, the list is
    made of the rows of the table that the caller may see -- those it owns
    and those whose public flag is set -- each as often as the table holds
    it, most recently updated first. *)
Theorem fetchResumes_lists_visible
    (uid : option string) (table : list Resumes.Row) (s : Dashboard.State) :
  let listed := Dashboard.resumes (Dashboard.fetchResumes uid None table s).1 in
  listed ≡ₚ filter (visible_to uid) table ∧
  (∀ r, r ∈ listed ↔ r ∈ table ∧ visible_to uid r) ∧
  (∀ r, r ∈ table → uid = Some (Resumes.user_id r) → r ∈ listed) ∧
  StronglySorted newer_first listed ∧
  Dashboard.isLoading (Dashboard.fetchResumes uid None table s).1 = false.
Proof.
  simpl.
  assert (Resumes.select uid (λ _, true) table = filter (visible_to uid) table)
    as ->.
  { unfold Resumes.select. apply list_filter_iff. intros r.
    rewrite andb_true_r. unfold Is_true.
    rewrite <- select_policy_visible.
    destruct (Resumes.select_policy uid r); naive_solver. }
  assert (∀ r, r ∈ Sql.order_by
                 (λ a b, Sql.desc (Resumes.updated_at a) (Resumes.updated_at b))
                 (filter (visible_to uid) table)
               ↔ r ∈ table ∧ visible_to uid r) as Hmem.
  { intros r. rewrite elem_of_order_by, list_elem_of_filter. tauto. }
  split_and!; [apply order_by_perm | done | | | done].
  - intros r Hin Hown. apply Hmem. split; [done | by left].
  - eapply StronglySorted_weaken; [| apply order_by_sorted ].
    + intros a b Hab. simpl in Hab. unfold Sql.desc, newer_first in *. lia.
    + intros x y. apply desc_total.
    + intros x y z. apply desc_trans.
Qed.

(** C4, as the specification words it, fails: a public resume of another
    user is listed. *)
Lemma fetchResumes_lists_public_of_others :
  let listed :=
    Dashboard.resumes
      (Dashboard.fetchResumes (Some "alice") None two_owners
         Dashboard.initial).1 in
  listed = [ a_resume "r-2" "bob" true 3000; a_resume "r-1" "alice" false 1000 ]
  ∧ listed ≠ Spec.owned_resumes "alice" two_owners
  ∧ ¬ (∀ r, r ∈ listed → Resumes.user_id r = "alice").
Proof.
  intros listed.
  assert (listed = [ a_resume "r-2" "bob" true 3000;
                     a_resume "r-1" "alice" false 1000 ]) as ->
    by (vm_compute; reflexivity).
  split_and!; [done | vm_compute; discriminate |].
  intros Hall. specialize (Hall (a_resume "r-2" "bob" true 3000)).
  discriminate Hall. apply list_elem_of_here.
Qed.

(* ===================================================================== *)
(** * The template gallery *)
(* ===================================================================== *)

Section Strings.
Implicit Types s t a b : string.

Lemma startsWith_spec s t :
  startsWith s t = true ↔ ∃ b, s = (t ++ b)%string.
Proof.
  revert s. induction t as [|c t IH]; intros s; simpl.
  - split; [by exists s | by destruct s].
  - destruct s as [|d s]; simpl.
    + split; [done | by intros [b Hb]].
    + rewrite andb_true_iff, IH. split.
      * intros [Hcd [b ->]]. apply Ascii.eqb_eq in Hcd as ->. by exists b.
      * intros [b [= -> ->]]. split; [apply Ascii.eqb_refl | by exists b].
Qed.

Lemma includes_nil t : includes "" t = startsWith "" t.
Proof. simpl. apply orb_false_r. Qed.

Lemma includes_cons c s t :
  includes (String c s) t = startsWith (String c s) t || includes s t.
Proof. reflexivity. Qed.

(** [includes] is the substring test. *)
Lemma includes_spec s t :
  includes s t = true ↔ ∃ a b, s = (a ++ t ++ b)%string.
Proof.
  split.
  - induction s as [|c s IH].
    + rewrite includes_nil. intros [b ->]%startsWith_spec. by exists "", b.
    + rewrite includes_cons, orb_true_iff. intros [Hst | Hin].
      * apply startsWith_spec in Hst as [b ->]. by exists "", b.
      * destruct (IH Hin) as (a & b & ->). by exists (String c a), b.
  - intros (a & b & ->). induction a as [|c a IH].
    + change ("" ++ t ++ b)%string with (t ++ b)%string.
      assert (startsWith (t ++ b) t = true) as Hst
        by (apply startsWith_spec; by exists b).
      revert Hst. generalize (t ++ b)%string. intros [|d u] Hst.
      * by rewrite includes_nil.
      * by rewrite includes_cons, Hst.
    + change (String c a ++ t ++ b)%string
        with (String c (a ++ t ++ b))%string.
      rewrite includes_cons, IH. apply orb_true_r.
Qed.

Lemma includes_empty s : includes s "" = true.
Proof. apply includes_spec. by exists "", s. Qed.
End Strings.

Lemma matches_empty (t : Templates.Row) : TemplateGallery.matches "" t = true.
Proof. unfold TemplateGallery.matches. simpl. by rewrite includes_empty. Qed.

Lemma filter_all {A} (P : A → Prop) `{∀ x, Decision (P x)} (l : list A) :
  (∀ x, P x) → filter P l = l.
Proof.
  intros HP. induction l as [|x l IH]; [done|].
  by rewrite filter_cons_True, IH.
Qed.

(** The two steps of [filterTemplates], each as one filter. *)
Lemma category_step (sel : string) (l : list Templates.Row) :
  (if negb (String.eqb sel "all")
   then filter (λ t, TemplateGallery.in_category sel t) l else l)
  = filter (λ t, sel = "all" ∨ TemplateGallery.in_category sel t = true) l.
Proof.
  destruct (String.eqb_spec sel "all") as [Hall|Hne]; simpl.
  - symmetry. apply filter_all. by left.
  - apply list_filter_iff. intros t. rewrite Is_true_true.
    split; [by right | by intros [?|?]].
Qed.

Lemma search_step (term : string) (l : list Templates.Row) :
  (if negb (String.eqb term "")
   then filter (λ t, TemplateGallery.matches term t) l else l)
  = filter (λ t, TemplateGallery.matches term t = true) l.
Proof.
  destruct (String.eqb_spec term "") as [->|_]; simpl.
  - symmetry. apply filter_all. intros t. apply matches_empty.
  - apply list_filter_iff. intros t. apply Is_true_true.
Qed.

(** What [filterTemplates] computes, in one predicate. *)
Lemma filtered_char (s : TemplateGallery.State) :
  TemplateGallery.filtered s
  = filter (λ t, (TemplateGallery.selectedCategory s = "all" ∨
                  TemplateGallery.in_category
                    (TemplateGallery.selectedCategory s) t = true) ∧
                 TemplateGallery.matches (TemplateGallery.searchTerm s) t = true)
      (TemplateGallery.templates s).
Proof.
  unfold TemplateGallery.filtered. cbv zeta.
  rewrite search_step, category_step, list_filter_filter.
  apply list_filter_iff. intros t. tauto.
Qed.

(** C8, as the code has it.  The catalog is fetched with the most
    downloaded template first.  With the selection ["all"] the filter keeps
    the templates whose name or category contains the search term; with any
    other selection it keeps exactly the templates whose category equals the
    selection and whose name or category contains the search term, letter
    case aside; the kept templates stay in the order of the catalog.  Over
    the seeded catalog the selection ["creative"] shows "Creative Edge" and
    then "Designer's Choice", with 8500 and 6800 downloads. *)
Theorem gallery_fetch_and_filter :
  ( ∀ uid table s,
      let fetched :=
        TemplateGallery.templates
          (TemplateGallery.fetchTemplates uid None table s).1 in
      fetched ≡ₚ table ∧ StronglySorted most_downloaded_first fetched ) ∧
  ( ∀ s,
      TemplateGallery.filteredTemplates (TemplateGallery.filterTemplates s)
      = (if String.eqb (TemplateGallery.selectedCategory s) "all"
         then filter (λ t, TemplateGallery.matches
                             (TemplateGallery.searchTerm s) t = true)
                (TemplateGallery.templates s)
         else Spec.template_filter (TemplateGallery.selectedCategory s)
                (TemplateGallery.searchTerm s) (TemplateGallery.templates s))
      ∧ TemplateGallery.filteredTemplates (TemplateGallery.filterTemplates s)
          `sublist_of` TemplateGallery.templates s ) ∧
  ( ∀ uid now,
      Templates.name <$>
        TemplateGallery.shown uid (Templates.seed now) "creative" ""
      = ["Creative Edge"; "Designer's Choice"] ∧
      Templates.downloads <$>
        TemplateGallery.shown uid (Templates.seed now) "creative" ""
      = [Some 8500%Z; Some 6800%Z] ∧
      TemplateGallery.shown uid (Templates.seed now) "creative" ""
      = Spec.template_filter "creative" ""
          (TemplateGallery.templates
             (TemplateGallery.fetchTemplates uid None (Templates.seed now)
                TemplateGallery.initial).1) ).
Proof.
  split_and!.
  - intros uid table s. simpl.
    assert (Templates.select uid table = table) as ->.
    { unfold Templates.select. by apply filter_all. }
    split; [apply order_by_perm|].
    apply (order_by_sorted
             (λ a b, Sql.desc_nulls_first (Templates.downloads a)
                       (Templates.downloads b))).
    + intros x y. apply desc_nulls_first_total.
    + intros x y z. apply desc_nulls_first_trans.
  - intros s. simpl. rewrite filtered_char. split.
    + destruct (String.eqb_spec (TemplateGallery.selectedCategory s) "all")
        as [Hall|Hne].
      * apply list_filter_iff. intros t. tauto.
      * unfold Spec.template_filter. apply list_filter_iff. intros t.
        rewrite andb_True, !Is_true_true. tauto.
    + apply sublist_filter.
  - intros uid now. split_and!; vm_compute; reflexivity.
Qed.

(** C8, as the specification words it, fails on the selection the gallery
    starts with: under ["all"] every template of the seeded catalog is
    shown, though none of them has the category "all". *)
Lemma gallery_all_shows_every_category :
  let catalog :=
    TemplateGallery.templates
      (TemplateGallery.fetchTemplates None None (Templates.seed 0)
         TemplateGallery.initial).1 in
  TemplateGallery.shown None (Templates.seed 0) "all" "" = catalog ∧
  length catalog = 6%nat ∧
  Spec.template_filter "all" "" catalog = [] ∧
  TemplateGallery.shown None (Templates.seed 0) "all" ""
    ≠ Spec.template_filter "all" "" catalog.
Proof.
  intros catalog.
  assert (TemplateGallery.shown None (Templates.seed 0) "all" "" = catalog)
    as Hshown by (vm_compute; reflexivity).
  assert (Spec.template_filter "all" "" catalog = []) as Hspec
    by (vm_compute; reflexivity).
  split_and!; [done | by vm_compute | done |].
  rewrite Hshown, Hspec. vm_compute. discriminate.
Qed.

(* ===================================================================== *)
(** * The document of a content *)
(* ===================================================================== *)

Lemma JArr_inj l l' : JArr l = JArr l' → l = l'.
Proof. intros Heq. exact (f_equal items_of Heq). Qed.

Lemma JObj_lookup m m' k : JObj m = JObj m' → m !! k = m' !! k.
Proof. intros Heq. exact (f_equal (λ v, get v k) Heq). Qed.

#[global] Instance JStr_inj : Inj (=) (=) JStr.
Proof. by intros s s' [= ->]. Qed.

#[global] Instance entryJson_inj : Inj (=) (=) entryJson.
Proof.
  intros e e' Hm. unfold entryJson in Hm. apply map_eq. intros k.
  pose proof (JObj_lookup _ _ k Hm) as Hk.
  rewrite !lookup_fmap in Hk.
  destruct (e !! k), (e' !! k); simpl in Hk; congruence.
Qed.

(** Read one key of a map written as a chain of inserts. *)
Ltac read_key H :=
  repeat rewrite (lookup_insert_ne _ _ _ _) in H by done;
  first [ rewrite !lookup_insert_eq in H | rewrite !lookup_singleton_eq in H ];
  apply (inj Some) in H.

#[global] Instance personalInfoJson_inj : Inj (=) (=) personalInfoJson.
Proof.
  intros p p' Hm. unfold personalInfoJson in Hm.
  pose proof (JObj_lookup _ _ "fullName" Hm) as H1.
  pose proof (JObj_lookup _ _ "email" Hm) as H2.
  pose proof (JObj_lookup _ _ "phone" Hm) as H3.
  pose proof (JObj_lookup _ _ "location" Hm) as H4.
  pose proof (JObj_lookup _ _ "summary" Hm) as H5.
  clear Hm. read_key H1. read_key H2. read_key H3. read_key H4. read_key H5.
  apply (inj JStr) in H1, H2, H3, H4, H5.
  destruct p, p'; simpl in *. congruence.
Qed.

(** Two contents with the same document are the same content: equality of
    documents is deep equality of the structures. *)
#[global] Instance toJson_inj : Inj (=) (=) toJson.
Proof.
  intros c c' Hm. unfold toJson in Hm.
  pose proof (JObj_lookup _ _ "personalInfo" Hm) as H1.
  pose proof (JObj_lookup _ _ "experience" Hm) as H2.
  pose proof (JObj_lookup _ _ "education" Hm) as H3.
  pose proof (JObj_lookup _ _ "skills" Hm) as H4.
  clear Hm. read_key H1. read_key H2. read_key H3. read_key H4.
  apply JArr_inj in H2, H3, H4.
  apply content_eq.
  - by apply (inj personalInfoJson).
  - by apply (inj (fmap entryJson)).
  - by apply (inj (fmap entryJson)).
  - by apply (inj (fmap JStr)).
Qed.

(* ===================================================================== *)
(** * Save, then load *)
(* ===================================================================== *)

Lemma filter_none {A} (P : A → Prop) `{∀ x, Decision (P x)} (l : list A) :
  (∀ x, x ∈ l → ¬ P x) → filter P l = [].
Proof.
  induction l as [|x l IH]; intros Hno; [done|].
  rewrite filter_cons_False by (apply Hno; left).
  apply IH. intros y Hy. apply Hno. by right.
Qed.

(** Under a key without duplicates, a predicate that pins the key down
    selects one row. *)
Lemma filter_by_key {A K} (key : A → K) (P : A → Prop)
    `{∀ x, Decision (P x)} (l : list A) (x : A) :
  NoDup (key <$> l) → x ∈ l → P x → (∀ y, P y → key y = key x) →
  filter P l = [x].
Proof.
  intros Hkeys Hx HPx Hpin.
  induction l as [|y l IH]; [by apply elem_of_nil in Hx|].
  rewrite fmap_cons in Hkeys. apply NoDup_cons in Hkeys as [Hy Hkeys].
  assert (∀ z, z ∈ l → key z ≠ key y) as Hfresh.
  { intros z Hz Heq. apply Hy. rewrite <- Heq. by apply list_elem_of_fmap_2. }
  apply elem_of_cons in Hx as [<- | Hx].
  - rewrite filter_cons_True by done. f_equal.
    apply filter_none. intros z Hz HPz. by apply (Hfresh z), Hpin.
  - rewrite filter_cons_False; [by apply IH|].
    intros HPy. apply (Hfresh x Hx). symmetry. by apply Hpin.
Qed.

Lemma saved_id uid id now s r : Resumes.id (saved uid id now s r) = Resumes.id r.
Proof. unfold saved. by destruct (_ && _). Qed.

Lemma saved_user_id uid id now s r :
  Resumes.user_id (saved uid id now s r) = Resumes.user_id r.
Proof. unfold saved. by destruct (_ && _). Qed.

(** The store never refuses the update that [saveResume] sends: the rows
    of the caller with the identifier are rewritten, the others stay. *)
Lemma saveResume_query_ok uid id clientNow now s table :
  Resumes.constraints table = true →
  saveResume_query uid id clientNow now s table
  = Sql.Ok (saved uid id now s <$> table).
Proof.
  intros Hkeys. unfold saveResume_query, Resumes.update, Sql.update.
  rewrite (mapM_Some_2 _ table (saved uid id now s <$> table)).
  - assert (Resumes.constraints (saved uid id now s <$> table) = true) as ->;
      [|done].
    unfold Resumes.constraints in *. rewrite <- list_fmap_compose.
    erewrite list_fmap_ext; [exact Hkeys|].
    intros i r _. apply saved_id.
  - apply Forall2_fmap_r, Forall_Forall2_diag, Forall_forall.
    intros r _. unfold Sql.update_row, saved, compose. cbv beta.
    destruct (bool_decide (Resumes.id r = id) && Resumes.update_using uid r)
      eqn:Htarget; [|done].
    apply andb_prop in Htarget as [_ Hown].
    assert (Resumes.update_check uid
              (Sql.update_updated_at_column now (saveResume_set s clientNow r))
            = true) as -> by exact Hown.
    reflexivity.
Qed.

(** Load-for-edit finds a row that exists and that the caller may see. *)
Lemma fetchResume_query_visible uid id table row :
  Resumes.constraints table = true → row ∈ table → Resumes.id row = id →
  Resumes.select_policy uid row = true →
  fetchResume_query uid id table = Sql.Ok row.
Proof.
  intros Hkeys Hrow Hid Hsee. unfold fetchResume_query, Resumes.select.
  assert (filter (λ r, Resumes.select_policy uid r &&
                       bool_decide (Resumes.id r = id)) table = [row]) as ->;
    [|done].
  apply (filter_by_key Resumes.id); [| done | |].
  - by apply bool_decide_eq_true in Hkeys.
  - rewrite Hsee. simpl. by apply bool_decide_pack.
  - intros y [_ Hy]%andb_True. apply bool_decide_unpack in Hy. congruence.
Qed.

Lemma saved_own uid id now s row :
  Resumes.id row = id → Resumes.user_id row = uid →
  saved (Some uid) id now s row
  = Sql.update_updated_at_column now (saveResume_set s 0 row).
Proof.
  intros Hid Hown. unfold saved, Resumes.update_using, Resumes.owned_by.
  rewrite !bool_decide_eq_true_2; [done | by rewrite Hown | done].
Qed.

(** C5, as the code has it.  For a resume that the caller owns, a save of
    title [X] and content [C] followed by load-for-edit on the same
    identifier brings back the title [X] and a content equal to the document
    of [C], which is the document of no other content; the stored row then
    holds [X], that document and, as its updated timestamp, the store's time
    of the save -- later than the previous timestamp whenever the store's
    clock is. *)
Theorem save_then_load_round_trip
    (uid id X : string) (C : ResumeContent) (clientNow now : Z)
    (table : list Resumes.Row) (row : Resumes.Row) (s : State) :
  Resumes.constraints table = true →
  row ∈ table → Resumes.id row = id → Resumes.user_id row = uid →
  let editing := setContent C (setTitle X s) in
  let after_save := saveResume (Some uid) None id clientNow now table editing in
  let after_load :=
    fetchResume (Some uid) None id after_save.1.2 after_save.1.1 in
  title after_load.1 = X ∧ content after_load.1 = toJson C ∧
  (∀ C', content after_load.1 = toJson C' → C' = C) ∧
  after_load.2 = [] ∧
  ∃ row', row' ∈ after_save.1.2 ∧ Resumes.id row' = id ∧
          Resumes.title row' = X ∧ Resumes.content row' = toJson C ∧
          Resumes.updated_at row' = now ∧
          ((Resumes.updated_at row < now)%Z →
           (Resumes.updated_at row < Resumes.updated_at row')%Z).
Proof.
  intros Hkeys Hrow Hid Hown editing after_save after_load.
  set (row' := Sql.update_updated_at_column now
                 (saveResume_set (saveResume_start editing) 0 row)).
  assert (after_save.1.2
          = saved (Some uid) id now (saveResume_start editing) <$> table)
    as Htable.
  { unfold after_save. rewrite saveResume_unfold. simpl.
    by rewrite saveResume_query_ok. }
  assert (row' ∈ after_save.1.2) as Hrow'.
  { rewrite Htable. unfold row'. rewrite <- (saved_own uid id) by done.
    by apply list_elem_of_fmap_2. }
  assert (fetchResume_query (Some uid) id after_save.1.2 = Sql.Ok row')
    as Hquery.
  { apply fetchResume_query_visible; [| done | done |].
    - rewrite Htable. unfold Resumes.constraints in *.
      rewrite <- list_fmap_compose.
      erewrite list_fmap_ext; [exact Hkeys|].
      intros i r _. apply saved_id.
    - unfold Resumes.select_policy, Resumes.owned_by. simpl.
      by rewrite Hown, bool_decide_eq_true_2. }
  unfold after_load, fetchResume. simpl Net.request. rewrite Hquery.
  split_and!; [done | done | | done |].
  - intros C' HC'. symmetry. by apply (inj toJson).
  - exists row'. by split_and!.
Qed.

Lemma save_then_load_round_trip_witness :
  let editing := setContent sample_content (setTitle "CV" initial) in
  let after_save :=
    saveResume (Some "alice") None "r-1" 1234 2000 two_owners editing in
  let after_load :=
    fetchResume (Some "alice") None "r-1" after_save.1.2 after_save.1.1 in
  title after_load.1 = "CV" ∧ content after_load.1 = toJson sample_content.
Proof.
  intros editing after_save after_load.
  destruct (save_then_load_round_trip "alice" "r-1" "CV" sample_content
              1234%Z 2000%Z two_owners (a_resume "r-1" "alice" false 1000)
              initial)
    as (Htitle & Hcontent & _).
  - reflexivity.
  - apply list_elem_of_here.
  - reflexivity.
  - reflexivity.
  - split; [exact Htitle | exact Hcontent].
Defined.

(** C5, as the specification words it, fails for a resume that the caller
    can see but does not own: bob's public resume loads for alice, her save
    is answered without an error and rewrites nothing, and the next load
    brings back bob's title, content and timestamp. *)
Lemma save_of_visible_resume_lost :
  let editing := setContent sample_content (setTitle "Mine" initial) in
  let before := fetchResume_query (Some "alice") "r-2" two_owners in
  let after_save :=
    saveResume (Some "alice") None "r-2" 1234 5000 two_owners editing in
  let after_load :=
    fetchResume (Some "alice") None "r-2" after_save.1.2 after_save.1.1 in
  before = Sql.Ok (a_resume "r-2" "bob" true 3000) ∧
  after_save.2 = [Toast "Resume saved"
                    "Your changes have been saved successfully." false] ∧
  after_save.1.2 = two_owners ∧
  title after_load.1 = "Untitled Resume" ∧ title after_load.1 ≠ "Mine" ∧
  content after_load.1 = toJson emptyContent ∧
  content after_load.1 ≠ toJson sample_content ∧
  fetchResume_query (Some "alice") "r-2" after_save.1.2
    = Sql.Ok (a_resume "r-2" "bob" true 3000) ∧
  ¬ (3000 < Resumes.updated_at (a_resume "r-2" "bob" true 3000))%Z.
Proof.
  intros editing before after_save after_load.
  assert (after_save.1.2 = two_owners) as Htable by (vm_compute; reflexivity).
  assert (title after_load.1 = "Untitled Resume") as Htitle
    by (vm_compute; reflexivity).
  assert (content after_load.1 = toJson emptyContent) as Hcontent
    by (vm_compute; reflexivity).
  split_and!; try (vm_compute; reflexivity).
  - rewrite Htitle. discriminate.
  - rewrite Hcontent. vm_compute. discriminate.
  - simpl. lia.
Qed.

(** The timestamp after a save is the store's time, also when that lies
    before the stored one. *)
Example save_under_lagging_clock :
  (saveResume (Some "bob") None "r-2" 1234 2000 two_owners initial).1.2
  = [ a_resume "r-1" "alice" false 1000;
      Sql.update_updated_at_column 2000
        (saveResume_set (saveResume_start initial) 0
           (a_resume "r-2" "bob" true 3000)) ].
Proof. vm_compute. reflexivity. Qed.

(* ===================================================================== *)
(** * Load-for-edit and absent sections *)
(* ===================================================================== *)

Lemma toJson_normalized (c : ResumeContent) : Spec.normalized (toJson c).
Proof.
  unfold Spec.normalized, toJson, get.
  split_and!; eexists.
  - apply lookup_insert_eq.
  - rewrite lookup_insert_ne by done. apply lookup_insert_eq.
  - rewrite !lookup_insert_ne by done. apply lookup_insert_eq.
  - rewrite !lookup_insert_ne by done. apply lookup_singleton_eq.
Qed.

(** What [fetchResume] stores for a row that the query returned. *)
Lemma fetchResume_finish_Ok (data : Resumes.Row) (s : State) :
  fetchResume_finish (Sql.Ok data) s
  = ({| isLoading := false; isSaving := isSaving s;
        title := Resumes.title data;
        content := or_else (Resumes.content data) (toJson emptyContent) |},
     []).
Proof. reflexivity. Qed.

(** The fallback covers a stored value that is falsy as a whole ... *)
Lemma load_falsy_content (stored : Json) :
  truthy stored = false →
  or_else stored (toJson emptyContent) = toJson emptyContent ∧
  Spec.normalized (or_else stored (toJson emptyContent)).
Proof.
  intros Hfalsy. unfold or_else. rewrite Hfalsy.
  split; [done | apply toJson_normalized].
Qed.

(** ... and any other stored value is taken as it is. *)
Lemma load_truthy_content (stored : Json) :
  truthy stored = true → or_else stored (toJson emptyContent) = stored.
Proof. intros Htruthy. unfold or_else. by rewrite Htruthy. Qed.

(** C1.  The code at the failing input: a resume row whose content is the
    column default, the empty object, is loaded by its owner without an
    error, and the content in memory is that empty object: personalInfo,
    experience, education and skills are all undefined after the load.  A
    document that holds skills only keeps its three gaps as well. *)
Theorem fetchResume_keeps_absent_sections :
  let row := Resumes.with_defaults "r-1" "alice" 1000 in
  let loaded := fetchResume (Some "alice") None "r-1" [row] initial in
  let skills_only := JObj {[ "skills" := JArr [JStr "logic"] ]} in
  loaded.2 = [] ∧ isLoading loaded.1 = false ∧
  content loaded.1 = JObj ∅ ∧
  get (content loaded.1) "personalInfo" = None ∧
  get (content loaded.1) "experience" = None ∧
  get (content loaded.1) "education" = None ∧
  get (content loaded.1) "skills" = None ∧
  ¬ Spec.normalized (content loaded.1) ∧
  or_else skills_only (toJson emptyContent) = skills_only ∧
  ¬ Spec.normalized (or_else skills_only (toJson emptyContent)).
Proof.
  intros row loaded skills_only.
  assert (content loaded.1 = JObj ∅) as Hcontent by reflexivity.
  rewrite Hcontent.
  split_and!; try reflexivity.
  - intros ([v Hv] & _). unfold get in Hv. by rewrite lookup_empty in Hv.
  - intros ([v Hv] & _). unfold or_else, skills_only, get in Hv.
    cbn [truthy] in Hv. by rewrite lookup_singleton_ne in Hv.
Qed.

(* ===================================================================== *)
(** * More on the content handlers *)
(* ===================================================================== *)

Section EntryUpdates.
Implicit Types (e : Entry) (id field value : string).

Lemma patchEntry_carrier id field value e :
  has_id id e → patchEntry id field value e = <[field := value]> e.
Proof. intros Hid. unfold patchEntry. by destruct (decide (has_id id e)). Qed.

Lemma insert_written field value e : written field value e (<[field := value]> e).
Proof.
  split; [apply lookup_insert_eq|].
  intros k Hk. by apply lookup_insert_ne.
Qed.

Lemma patchEntry_keeps_id id field value e :
  field ≠ "id" → has_id id (patchEntry id field value e) ↔ has_id id e.
Proof.
  intros Hfield. unfold patchEntry.
  destruct (decide (has_id id e)) as [Hid|Hid]; [|done].
  unfold has_id in *. by rewrite lookup_insert_ne.
Qed.

Lemma patchEntry_twice id field v1 v2 e :
  field ≠ "id" →
  patchEntry id field v2 (patchEntry id field v1 e) = patchEntry id field v2 e.
Proof.
  intros Hfield. destruct (decide (has_id id e)) as [Hid|Hid].
  - rewrite (patchEntry_carrier id field v1 e Hid).
    rewrite !patchEntry_carrier; [apply insert_insert_eq | done |].
    unfold has_id in *. by rewrite lookup_insert_ne.
  - by rewrite (patchEntry_other id field v1 e Hid).
Qed.

Lemma patchEntry_swap id field field' v v' e :
  field ≠ "id" → field' ≠ "id" → field ≠ field' →
  patchEntry id field v (patchEntry id field' v' e)
  = patchEntry id field' v' (patchEntry id field v e).
Proof.
  intros Hf Hf' Hne. destruct (decide (has_id id e)) as [Hid|Hid].
  - rewrite (patchEntry_carrier id field' v' e Hid),
      (patchEntry_carrier id field v e Hid).
    rewrite !patchEntry_carrier; [by apply insert_insert_ne | |];
      unfold has_id in *; by rewrite lookup_insert_ne.
  - by rewrite !(patchEntry_other _ _ _ e Hid).
Qed.

End EntryUpdates.

(** X1.  An update rewrites every entry that carries the identifier, where
    it stands: afterwards the entry reads [value] at [field] and reads as
    before at every other property.  This holds on experience and on
    education. *)
Theorem update_writes_carriers
    (content : ResumeContent) (id field value : string) (i : nat) (e : Entry) :
  has_id id e →
  ( experience content !! i = Some e →
    ∃ e', experience (updateExperience id field value content) !! i = Some e'
          ∧ written field value e e' ) ∧
  ( education content !! i = Some e →
    ∃ e', education (updateEducation id field value content) !! i = Some e'
          ∧ written field value e e' ).
Proof.
  intros Hid. split; intros Hi; exists (<[field := value]> e);
    (split; [|apply insert_written]); simpl;
    by rewrite list_lookup_fmap, Hi, <- (patchEntry_carrier id).
Qed.

Lemma update_writes_carriers_witness :
  ∃ e', experience
          (updateExperience "e-2" "position" "Fellow" sample_content) !! 1%nat
        = Some e'
        ∧ written "position" "Fellow"
            (<["company" := "Royal Society"]> (newExp "e-2")) e'.
Proof.
  apply (update_writes_carriers sample_content "e-2" "position" "Fellow"
           1%nat (<["company" := "Royal Society"]> (newExp "e-2"))).
  - vm_compute. reflexivity.
  - reflexivity.
Defined.



(** X3.  On a property other than [id], the later of two updates of the
    same entry and property wins, and updates of two different properties
    give the same content in either order; on experience and on
    education. *)
Theorem update_last_write_wins
    (content : ResumeContent) (id field field' v1 v2 : string) :
  field ≠ "id" →
  updateExperience id field v2 (updateExperience id field v1 content)
    = updateExperience id field v2 content ∧
  updateEducation id field v2 (updateEducation id field v1 content)
    = updateEducation id field v2 content ∧
  ( field' ≠ "id" → field ≠ field' →
    updateExperience id field v1 (updateExperience id field' v2 content)
      = updateExperience id field' v2 (updateExperience id field v1 content) ∧
    updateEducation id field v1 (updateEducation id field' v2 content)
      = updateEducation id field' v2 (updateEducation id field v1 content) ).
Proof.
  intros Hfield.
  assert (∀ l : list Entry,
            patchEntry id field v2 <$> (patchEntry id field v1 <$> l)
            = patchEntry id field v2 <$> l) as Htwice.
  { intros l. rewrite <- list_fmap_compose. apply list_fmap_ext.
    intros j e _. by apply patchEntry_twice. }
  split_and!.
  - apply content_eq; try done. apply Htwice.
  - apply content_eq; try done. apply Htwice.
  - intros Hfield' Hne.
    assert (∀ l : list Entry,
              patchEntry id field v1 <$> (patchEntry id field' v2 <$> l)
              = patchEntry id field' v2 <$> (patchEntry id field v1 <$> l))
      as Hswap.
    { intros l. rewrite <- !list_fmap_compose. apply list_fmap_ext.
      intros j e _. by apply patchEntry_swap. }
    split; apply content_eq; try done; apply Hswap.
Qed.

Lemma update_last_write_wins_witness :
  updateExperience "e-1" "company" "Babbage and Co"
    (updateExperience "e-1" "company" "Babbage" sample_content)
  = updateExperience "e-1" "company" "Babbage and Co" sample_content.
Proof.
  apply (update_last_write_wins sample_content "e-1" "company" "position"
           "Babbage" "Babbage and Co").
  discriminate.
Defined.

(** X4.  After a removal no entry carries the identifier, a second removal
    changes nothing, and the sequence is shorter by the number of entries
    that carried it; on experience and on education. *)
Theorem remove_clears_identifier (content : ResumeContent) (id : string) :
  absent id (experience (removeExperience id content)) ∧
  removeExperience id (removeExperience id content)
    = removeExperience id content ∧
  (length (experience (removeExperience id content))
   + length (filter (has_id id) (experience content))
   = length (experience content))%nat ∧
  absent id (education (removeEducation id content)) ∧
  removeEducation id (removeEducation id content)
    = removeEducation id content ∧
  (length (education (removeEducation id content))
   + length (filter (has_id id) (education content))
   = length (education content))%nat.
Proof.
  assert (∀ l : list Entry, absent id (filter (λ e, ¬ has_id id e) l)) as Habs.
  { intros l. apply Forall_forall. intros e He.
    by apply list_elem_of_filter in He as [Hne _]. }
  assert (∀ l : list Entry,
            (length (filter (λ e, ¬ has_id id e) l)
             + length (filter (has_id id) l) = length l)%nat) as Hlen.
  { intros l. rewrite <- length_app. apply Permutation_length.
    etransitivity; [apply Permutation_app_comm|].
    apply (filter_app_complement (has_id id)). }
  split_and!.
  - apply Habs.
  - apply content_eq; try done. simpl. apply drop_absent, Habs.
  - apply Hlen.
  - apply Habs.
  - apply content_eq; try done. simpl. apply drop_absent, Habs.
  - apply Hlen.
Qed.

(** X5.  The add/remove law on education: appending an education entry
    under a fresh identifier and removing it by that identifier gives the
    content from before. *)
Theorem add_then_remove_education (content : ResumeContent) (uuid : string) :
  absent uuid (education content) →
  removeEducation uuid (addEducation uuid content) = content.
Proof.
  intros Hfresh. apply content_eq; try done. simpl.
  apply append_then_drop; [apply newEdu_has_id | done].
Qed.

Lemma add_then_remove_education_witness :
  removeEducation "s-2" (addEducation "s-2" sample_content) = sample_content.
Proof.
  apply (add_then_remove_education sample_content "s-2").
  unfold absent, sample_content; simpl.
  repeat constructor; unfold has_id; vm_compute; discriminate.
Defined.

(** X6.  The add/remove law on skills: [addSkill] puts an empty skill at
    the end, and removing the last position gives the content from
    before. *)
Theorem add_then_remove_skill (content : ResumeContent) :
  skills (addSkill content) !! length (skills content) = Some "" ∧
  removeSkill (length (skills content)) (addSkill content) = content.
Proof.
  split.
  - simpl. by rewrite lookup_app_r, Nat.sub_diag.
  - apply content_eq; try done.
    rewrite removeSkill_delete. simpl.
    by rewrite (delete_middle (skills content) [] ""), app_nil_r.
Qed.

(** X7.  [updateSkill] at a rendered position replaces that skill and no
    other: the sequence keeps its length, reads [value] at the position and
    reads as before everywhere else. *)
Theorem updateSkill_replaces_one
    (content : ResumeContent) (index : nat) (value : string) :
  (index < length (skills content))%nat →
  ∃ content', updateSkill index value content = Some content' ∧
    length (skills content') = length (skills content) ∧
    skills content' !! index = Some value ∧
    ∀ j, j ≠ index → skills content' !! j = skills content !! j.
Proof.
  intros Hlt. destruct (updateSkill_in_range index value content Hlt)
    as (content' & Hupd & Hskills).
  exists content'. rewrite Hskills. split_and!; [done | | |].
  - apply length_insert.
  - by apply list_lookup_insert_eq.
  - intros j Hj. by apply list_lookup_insert_ne.
Qed.

Lemma updateSkill_replaces_one_witness :
  ∃ content', updateSkill 0 "algebra" sample_content = Some content' ∧
    length (skills content') = length (skills sample_content) ∧
    skills content' !! 0%nat = Some "algebra" ∧
    ∀ j, j ≠ 0%nat → skills content' !! j = skills sample_content !! j.
Proof.
  apply (updateSkill_replaces_one sample_content 0 "algebra").
  simpl. lia.
Defined.

(** X8.  [removeSkill] takes out the skill at the position and closes the
    gap: the skills before it stay, the skills after it move up by one and
    the sequence is one shorter; a position past the end removes
    nothing. *)
Theorem removeSkill_closes_gap (content : ResumeContent) (index : nat) :
  ( (length (skills content) ≤ index)%nat →
    removeSkill index content = content ) ∧
  ( (index < length (skills content))%nat →
    S (length (skills (removeSkill index content)))
      = length (skills content) ) ∧
  ( ∀ j, (j < index)%nat →
      skills (removeSkill index content) !! j = skills content !! j ) ∧
  ( ∀ j, (index ≤ j)%nat →
      skills (removeSkill index content) !! j = skills content !! S j ).
Proof.
  rewrite !removeSkill_delete. split_and!.
  - intros Hge. apply content_eq; try done.
    rewrite removeSkill_delete, delete_take_drop.
    rewrite take_ge, drop_ge by lia. apply app_nil_r.
  - intros Hlt. rewrite length_delete by by apply lookup_lt_is_Some. lia.
  - intros j Hj. by apply list_lookup_delete_lt.
  - intros j Hj. by apply list_lookup_delete_ge.
Qed.

Lemma removeSkill_closes_gap_witness :
  removeSkill 2 sample_content = sample_content ∧
  S (length (skills (removeSkill 0 sample_content)))
    = length (skills sample_content).
Proof.
  split.
  - apply (removeSkill_closes_gap sample_content 2). simpl. lia.
  - apply (removeSkill_closes_gap sample_content 0). simpl. lia.
Defined.

(* ===================================================================== *)
(** * Isolation of the rows of other identities *)
(* ===================================================================== *)

Lemma update_untargeted {Row} (using_expr check_expr : Row → bool)
    (before_update : Row → Row) (constraints : list Row → bool)
    (where_clause : Row → bool) (set_clause : Row → Row)
    (table table' : list Row) (i : nat) (OLD : Row) :
  Sql.update using_expr check_expr before_update constraints where_clause
    set_clause table = Sql.Ok table' →
  table !! i = Some OLD → using_expr OLD = false → table' !! i = Some OLD.
Proof.
  intros Hup Hold Hforeign.
  pose proof (update_length _ _ _ _ _ _ _ _ Hup) as Hlen.
  destruct (lookup_lt_is_Some_2 table' i) as [NEW Hnew].
  { rewrite Hlen. by eapply lookup_lt_Some. }
  destruct (update_rowwise _ _ _ _ _ _ _ _ _ _ _ Hup Hold Hnew)
    as [(Ht & _) | (_ & ->)]; [|done].
  unfold Sql.targeted in Ht. rewrite Hforeign, andb_false_r in Ht. done.
Qed.

(** X9.  No update reaches a row of another identity: whatever the [WHERE]
    and [SET] clauses, an update of [resumes] or of [profiles] that the
    store accepts leaves every row the caller does not own as it was, and an
    update by an anonymous caller leaves the whole table as it was. *)
Theorem update_spares_foreign_rows :
  ( ∀ uid now where_clause set_clause table table' i OLD,
      Resumes.update uid now where_clause set_clause table = Sql.Ok table' →
      table !! i = Some OLD → uid ≠ Some (Resumes.user_id OLD) →
      table' !! i = Some OLD ) ∧
  ( ∀ uid now where_clause set_clause table table' i OLD,
      Profiles.update uid now where_clause set_clause table = Sql.Ok table' →
      table !! i = Some OLD → uid ≠ Some (Profiles.user_id OLD) →
      table' !! i = Some OLD ) ∧
  ( ∀ now where_clause set_clause table table',
      Resumes.update None now where_clause set_clause table = Sql.Ok table' →
      table' = table ).
Proof.
  split_and!.
  - intros uid now where_clause set_clause table table' i OLD Hup Hold Hne.
    eapply update_untargeted; [exact Hup | exact Hold |].
    by apply bool_decide_eq_false_2.
  - intros uid now where_clause set_clause table table' i OLD Hup Hold Hne.
    eapply update_untargeted; [exact Hup | exact Hold |].
    by apply bool_decide_eq_false_2.
  - intros now where_clause set_clause table table' Hup.
    apply list_eq. intros i.
    destruct (table !! i) as [OLD|] eqn:Hold.
    + eapply update_untargeted; [exact Hup | exact Hold | done].
    + apply lookup_ge_None. apply lookup_ge_None in Hold.
      by rewrite (update_length _ _ _ _ _ _ _ _ Hup).
Qed.

Lemma update_spares_foreign_rows_witness :
  Resumes.update (Some "alice") 2000 (λ _, true) (rename_to "Taken")
    two_owners
  = Sql.Ok [ Sql.update_updated_at_column 2000
               (rename_to "Taken" (a_resume "r-1" "alice" false 1000));
             a_resume "r-2" "bob" true 3000 ]
  ∧ [ Sql.update_updated_at_column 2000
        (rename_to "Taken" (a_resume "r-1" "alice" false 1000));
      a_resume "r-2" "bob" true 3000 ] !! 1%nat
    = Some (a_resume "r-2" "bob" true 3000).
Proof.
  split; [reflexivity|].
  destruct update_spares_foreign_rows as (Hresumes & _ & _).
  apply (Hresumes (Some "alice") 2000%Z (λ _, true) (rename_to "Taken")
           two_owners _ 1%nat (a_resume "r-2" "bob" true 3000));
    [reflexivity | reflexivity | discriminate].
Defined.

(** X10.  No delete reaches a row of another identity: the rows that a
    delete on [resumes] leaves are a subsequence of the table, the rows the
    caller does not own are all among them in their order, every row that
    went satisfied the [WHERE] clause and was the caller's, and an anonymous
    caller deletes nothing. *)
Theorem delete_spares_foreign_rows
    (uid : option string) (where_clause : Resumes.Row → bool)
    (table : list Resumes.Row) :
  ∃ table', Resumes.delete uid where_clause table = Sql.Ok table' ∧
    table' `sublist_of` table ∧
    filter (λ r, uid ≠ Some (Resumes.user_id r)) table'
      = filter (λ r, uid ≠ Some (Resumes.user_id r)) table ∧
    (∀ r, r ∈ table → r ∉ table' →
       where_clause r = true ∧ uid = Some (Resumes.user_id r)) ∧
    (uid = None → table' = table).
Proof.
  eexists. split; [reflexivity|].
  assert (∀ r, Resumes.delete_using uid r = true
               ↔ uid = Some (Resumes.user_id r)) as Hown.
  { intros r. apply bool_decide_eq_true. }
  split_and!.
  - apply sublist_filter.
  - rewrite list_filter_filter. apply list_filter_iff. intros r.
    split; [by intros [? _]|]. intros Hne. split; [done|].
    rewrite andb_True. intros [_ Hu]. apply Hne, Hown.
    by apply Is_true_true.
  - intros r Hin Hout.
    destruct (where_clause r) eqn:Hw, (Resumes.delete_using uid r) eqn:Hu;
      try (exfalso; apply Hout, list_elem_of_filter; split; [|done];
           rewrite Hw, Hu; by intros []).
    split; [done | by apply Hown].
  - intros ->. apply filter_all. intros r. rewrite andb_True.
    by intros [_ []].
Qed.

(* ===================================================================== *)
(** * Loading, creating and deleting a resume *)
(* ===================================================================== *)

Lemma single_Ok_inv {A} (rows : list A) (row : A) :
  Sql.single rows = Sql.Ok row → rows = [row].
Proof. destruct rows as [|x [|y rest]]; simpl; congruence. Qed.

Lemma fetchResume_query_Ok_inv uid id table row :
  fetchResume_query uid id table = Sql.Ok row →
  row ∈ table ∧ Resumes.id row = id ∧ Resumes.select_policy uid row = true.
Proof.
  intros Hq. apply single_Ok_inv in Hq.
  assert (row ∈ Resumes.select uid (λ r, bool_decide (Resumes.id r = id)) table)
    as Hin by (rewrite Hq; apply list_elem_of_here).
  apply list_elem_of_filter in Hin as [[Hsee Hid]%andb_True Hin].
  split_and!; [done | by apply bool_decide_unpack in Hid
              | by apply Is_true_true].
Qed.

Lemma fetchResume_query_none uid id table :
  (∀ row, row ∈ table → Resumes.id row = id →
          Resumes.select_policy uid row = false) →
  fetchResume_query uid id table
  = Sql.Failure "JSON object requested, multiple (or no) rows returned".
Proof.
  intros Hnone. unfold fetchResume_query, Resumes.select.
  rewrite filter_none; [done|].
  intros r Hin [Hsee Hid]%andb_True. apply bool_decide_unpack in Hid.
  rewrite (Hnone r Hin Hid) in Hsee. done.
Qed.

(** X11.  Load-for-edit succeeds exactly on a resume that exists and that
    the caller may see (its own, or a public one), and then with that row;
    when there is no such resume the session keeps its title and content,
    stops loading, shows the error toast and goes to the dashboard. *)
Theorem load_succeeds_iff_visible
    (uid : option string) (id : string) (table : list Resumes.Row) (s : State) :
  Resumes.constraints table = true →
  ( ∀ row, fetchResume_query uid id table = Sql.Ok row ↔
           row ∈ table ∧ Resumes.id row = id ∧ visible_to uid row ) ∧
  ( (∀ row, row ∈ table → Resumes.id row = id → ¬ visible_to uid row) →
    fetchResume uid None id table s
    = (setIsLoading false s,
       [Toast "Error" "Failed to load resume" true; Navigate "/dashboard"]) ).
Proof.
  intros Hkeys. split.
  - intros row. split.
    + intros (Hin & Hid & Hsee)%fetchResume_query_Ok_inv.
      by apply select_policy_visible in Hsee.
    + intros (Hin & Hid & Hsee). apply fetchResume_query_visible; try done.
      by apply select_policy_visible.
  - intros Hnone. unfold fetchResume. simpl Net.request.
    rewrite fetchResume_query_none; [done|].
    intros row Hin Hid. specialize (Hnone row Hin Hid).
    rewrite <- select_policy_visible in Hnone.
    by destruct (Resumes.select_policy uid row).
Qed.

Lemma load_succeeds_iff_visible_witness :
  fetchResume_query (Some "alice") "r-2" two_owners
    = Sql.Ok (a_resume "r-2" "bob" true 3000)
  ∧ fetchResume (Some "bob") None "r-1" two_owners initial
    = (setIsLoading false initial,
       [Toast "Error" "Failed to load resume" true; Navigate "/dashboard"]).
Proof.
  split.
  - apply (load_succeeds_iff_visible (Some "alice") "r-2" two_owners initial);
      [reflexivity|].
    split_and!; [apply list_elem_of_further, list_elem_of_here | reflexivity
                | by right].
  - apply (load_succeeds_iff_visible (Some "bob") "r-1" two_owners initial);
      [reflexivity|].
    intros row Hin Hid [Hown | Hpublic];
      apply elem_of_cons in Hin as [-> | Hin];
      [ discriminate Hown | | discriminate Hpublic | ];
      apply list_elem_of_singleton in Hin as ->; discriminate Hid.
Defined.

(** X12.  A caller can insert a resume for itself only: the store accepts
    the row exactly when the caller is its owner and its identifier is not
    in use, and then appends it and returns it; an anonymous caller can
    insert nothing, and a refused insert leaves no trace. *)
Theorem insert_only_for_self
    (uid : option string) (NEW : Resumes.Row) (table : list Resumes.Row) :
  Resumes.constraints table = true →
  ( Resumes.insert_returning uid NEW table
      = Sql.Ok ((table ++ [NEW])%list, NEW) ↔
    uid = Some (Resumes.user_id NEW) ∧ Resumes.id NEW ∉ Resumes.id <$> table ) ∧
  ( ∀ out, Resumes.insert_returning uid NEW table = Sql.Ok out →
           out = ((table ++ [NEW])%list, NEW) ∧
           Resumes.constraints out.1 = true ).
Proof.
  intros Hkeys. apply bool_decide_eq_true in Hkeys.
  assert (Resumes.constraints (table ++ [NEW])%list = true
          ↔ Resumes.id NEW ∉ Resumes.id <$> table) as Hfresh.
  { unfold Resumes.constraints. rewrite bool_decide_eq_true, fmap_app.
    rewrite NoDup_app. simpl. split.
    - intros (_ & Hdisj & _) Hin. apply (Hdisj _ Hin), list_elem_of_here.
    - intros Hout. split_and!; [done | | apply NoDup_singleton].
      intros x Hx ->%list_elem_of_singleton. done. }
  assert (Resumes.insert_check uid NEW && Resumes.select_policy uid NEW = true
          ↔ uid = Some (Resumes.user_id NEW)) as Hself.
  { unfold Resumes.insert_check, Resumes.select_policy, Resumes.owned_by.
    destruct (decide (uid = Some (Resumes.user_id NEW))) as [Hu|Hu].
    - rewrite (bool_decide_eq_true_2 _ Hu). simpl. by split.
    - rewrite (bool_decide_eq_false_2 _ Hu). simpl. by split. }
  unfold Resumes.insert_returning, Sql.insert.
  destruct (Resumes.insert_check uid NEW && Resumes.select_policy uid NEW)
    eqn:Hck.
  - destruct (Resumes.constraints (table ++ [NEW])%list) eqn:Hc.
    + split; [|by intros out [= <-]].
      split; [intros _|done]. split; [by apply Hself | by apply Hfresh].
    + split; [|done]. split; [done|]. intros [_ Hout].
      apply Hfresh in Hout. congruence.
  - split; [|done]. split; [done|]. intros [Hu _].
    apply Hself in Hu. congruence.
Qed.

Lemma insert_only_for_self_witness :
  Resumes.insert_returning (Some "alice")
    (Resumes.inserted "r-3" 4000 "alice" "New Resume" "modern-minimal"
       DashboardActions.blank) two_owners
  = Sql.Ok ((two_owners ++
             [Resumes.inserted "r-3" 4000 "alice" "New Resume"
                "modern-minimal" DashboardActions.blank])%list,
            Resumes.inserted "r-3" 4000 "alice" "New Resume"
              "modern-minimal" DashboardActions.blank).
Proof.
  apply (insert_only_for_self (Some "alice")
           (Resumes.inserted "r-3" 4000 "alice" "New Resume" "modern-minimal"
              DashboardActions.blank) two_owners); [reflexivity|].
  split; [reflexivity|].
  simpl. rewrite !elem_of_cons, elem_of_nil.
  intros [Heq | [Heq | []]]; discriminate Heq.
Defined.

Lemma filter_ext_in {A} (P Q : A → Prop) `{∀ x, Decision (P x)}
    `{∀ x, Decision (Q x)} (l : list A) :
  (∀ x, x ∈ l → P x ↔ Q x) → filter P l = filter Q l.
Proof.
  induction l as [|x l IH]; intros Hext; [done|].
  rewrite !filter_cons.
  destruct (decide (P x)) as [HP|HP], (decide (Q x)) as [HQ|HQ].
  - f_equal. apply IH. intros y Hy. apply Hext. by right.
  - destruct HQ. apply Hext; [left | done].
  - destruct HP. apply Hext; [left | done].
  - apply IH. intros y Hy. apply Hext. by right.
Qed.

(** A key without duplicates identifies the row. *)
Lemma key_unique {A K} (key : A → K) (l : list A) (x y : A) :
  NoDup (key <$> l) → x ∈ l → y ∈ l → key x = key y → x = y.
Proof.
  induction l as [|z l IH]; intros Hkeys Hx Hy Heq;
    [by apply elem_of_nil in Hx|].
  rewrite fmap_cons in Hkeys. apply NoDup_cons in Hkeys as [Hz Hkeys].
  apply elem_of_cons in Hx as [-> | Hx], Hy as [-> | Hy]; [done | | |].
  - destruct Hz. rewrite Heq. by apply list_elem_of_fmap_2.
  - destruct Hz. rewrite <- Heq. by apply list_elem_of_fmap_2.
  - by apply IH.
Qed.

(** The store accepts the insert of an own row under an unused key. *)
Lemma insert_returning_own uid (NEW : Resumes.Row) table :
  Resumes.constraints table = true →
  uid = Some (Resumes.user_id NEW) → Resumes.id NEW ∉ Resumes.id <$> table →
  Resumes.insert_returning uid NEW table
    = Sql.Ok ((table ++ [NEW])%list, NEW) ∧
  Resumes.constraints (table ++ [NEW])%list = true.
Proof.
  intros Hkeys -> Hfresh. apply bool_decide_eq_true in Hkeys.
  assert (Resumes.constraints (table ++ [NEW])%list = true) as Hkeys'.
  { unfold Resumes.constraints. rewrite bool_decide_eq_true, fmap_app.
    rewrite NoDup_app. simpl. split_and!; [done | | apply NoDup_singleton].
    intros x Hx ->%list_elem_of_singleton. done. }
  split; [|done].
  unfold Resumes.insert_returning, Sql.insert. rewrite Hkeys'.
  unfold Resumes.insert_check, Resumes.select_policy, Resumes.owned_by.
  rewrite (bool_decide_eq_true_2 _ (eq_refl (Some (Resumes.user_id NEW)))).
  reflexivity.
Qed.

Lemma blank_loads :
  or_else DashboardActions.blank (toJson emptyContent) = toJson emptyContent.
Proof. reflexivity. Qed.

(** What load-for-edit makes of a freshly inserted row. *)
Lemma load_of_inserted uid id now owner heading template table s :
  Resumes.constraints
    (table ++ [Resumes.inserted id now owner heading template
                 DashboardActions.blank])%list = true →
  ( uid = Some owner →
    fetchResume uid None id
      (table ++ [Resumes.inserted id now owner heading template
                   DashboardActions.blank])%list s
    = ({| isLoading := false; isSaving := isSaving s; title := heading;
          content := toJson emptyContent |}, []) ) ∧
  ( uid ≠ Some owner →
    id ∉ Resumes.id <$> table →
    fetchResume_query uid id
      (table ++ [Resumes.inserted id now owner heading template
                   DashboardActions.blank])%list
    = Sql.Failure "JSON object requested, multiple (or no) rows returned" ).
Proof.
  intros Hkeys. split.
  - intros ->. unfold fetchResume. simpl Net.request.
    rewrite (fetchResume_query_visible (Some owner) id _
               (Resumes.inserted id now owner heading template
                  DashboardActions.blank)); try done.
    + apply elem_of_app. right. apply list_elem_of_here.
    + unfold Resumes.select_policy, Resumes.owned_by. simpl.
      by rewrite bool_decide_eq_true_2.
  - intros Hother Hfresh. apply fetchResume_query_none.
    intros row Hin Hid. apply elem_of_app in Hin as [Hin | Hin].
    + destruct Hfresh. rewrite <- Hid. by apply list_elem_of_fmap_2.
    + apply list_elem_of_singleton in Hin as ->.
      unfold Resumes.select_policy, Resumes.owned_by. simpl.
      by rewrite bool_decide_eq_false_2.
Qed.

(** X13.  [createNewResume] by a signed-in user with an unused identifier
    appends one resume that the user owns, announces it and opens the
    editor on it; loading it there gives the title "New Resume" and the
    complete empty content, and no other caller can load it. *)
Theorem create_then_load
    (user new_id : string) (now : Z) (table : list Resumes.Row) (s : State) :
  Resumes.constraints table = true → new_id ∉ Resumes.id <$> table →
  let row := Resumes.inserted new_id now user "New Resume" "modern-minimal"
               DashboardActions.blank in
  DashboardActions.createNewResume (Some user) None new_id now table
    = ((table ++ [row])%list,
       [DashboardActions.Toast "Resume created!"
          "Your new resume is ready to edit." false;
        DashboardActions.Navigate ("/builder/" +:+ new_id)]) ∧
  Resumes.constraints (table ++ [row])%list = true ∧
  fetchResume (Some user) None new_id (table ++ [row])%list s
    = ({| isLoading := false; isSaving := isSaving s; title := "New Resume";
          content := toJson emptyContent |}, []) ∧
  Spec.normalized (toJson emptyContent) ∧
  ( ∀ other, other ≠ Some user →
      fetchResume_query other new_id (table ++ [row])%list
      = Sql.Failure "JSON object requested, multiple (or no) rows returned" ).
Proof.
  intros Hkeys Hfresh row.
  destruct (insert_returning_own (Some user) row table Hkeys eq_refl Hfresh)
    as [Hins Hkeys'].
  split_and!.
  - unfold DashboardActions.createNewResume. simpl Net.request.
    fold row. by rewrite Hins.
  - exact Hkeys'.
  - by apply load_of_inserted.
  - apply toJson_normalized.
  - intros other Hother. by apply load_of_inserted.
Qed.

Lemma create_then_load_witness :
  DashboardActions.createNewResume (Some "alice") None "r-3" 4000 two_owners
  = ((two_owners ++
      [Resumes.inserted "r-3" 4000 "alice" "New Resume" "modern-minimal"
         DashboardActions.blank])%list,
     [DashboardActions.Toast "Resume created!"
        "Your new resume is ready to edit." false;
      DashboardActions.Navigate "/builder/r-3"]).
Proof.
  apply (create_then_load "alice" "r-3" 4000%Z two_owners initial);
    [reflexivity|].
  simpl. rewrite !elem_of_cons, elem_of_nil.
  intros [Heq | [Heq | []]]; discriminate Heq.
Defined.

(** X14.  [useTemplate] sends an anonymous visitor to the sign-in page and
    stores nothing.  For a signed-in user and an unused identifier it
    appends one resume owned by the user that refers to the chosen
    template -- any identifier is taken, the catalog and the premium flag
    are not consulted -- and opens the editor, where it loads with the
    complete empty content. *)
Theorem useTemplate_creates_from_template
    (user templateId new_id : string) (now : Z) (table : list Resumes.Row)
    (s : State) :
  Resumes.constraints table = true → new_id ∉ Resumes.id <$> table →
  let row := Resumes.inserted new_id now user "New Resume" templateId
               DashboardActions.blank in
  GalleryActions.useTemplate (Some user) None templateId new_id now table
    = ((table ++ [row])%list,
       [GalleryActions.Toast "Template selected!"
          "Your new resume is ready to edit." false;
        GalleryActions.Navigate ("/builder/" +:+ new_id)]) ∧
  Resumes.template_id row = templateId ∧ Resumes.user_id row = user ∧
  fetchResume (Some user) None new_id (table ++ [row])%list s
    = ({| isLoading := false; isSaving := isSaving s; title := "New Resume";
          content := toJson emptyContent |}, []) ∧
  ( ∀ fault, GalleryActions.useTemplate None fault templateId new_id now table
             = (table, [GalleryActions.Navigate "/auth"]) ).
Proof.
  intros Hkeys Hfresh row.
  destruct (insert_returning_own (Some user) row table Hkeys eq_refl Hfresh)
    as [Hins Hkeys'].
  split_and!; try done.
  - unfold GalleryActions.useTemplate. simpl Net.request.
    fold row. by rewrite Hins.
  - by apply load_of_inserted.
Qed.

Lemma useTemplate_creates_from_template_witness :
  GalleryActions.useTemplate (Some "alice") None "professional-plus" "r-3"
    4000 two_owners
  = ((two_owners ++
      [Resumes.inserted "r-3" 4000 "alice" "New Resume" "professional-plus"
         DashboardActions.blank])%list,
     [GalleryActions.Toast "Template selected!"
        "Your new resume is ready to edit." false;
      GalleryActions.Navigate "/builder/r-3"]).
Proof.
  apply (useTemplate_creates_from_template "alice" "professional-plus" "r-3"
           4000%Z two_owners initial); [reflexivity|].
  simpl. rewrite !elem_of_cons, elem_of_nil.
  intros [Heq | [Heq | []]]; discriminate Heq.
Defined.

(** The delete that [deleteResume] sends, for the owner of the one row with
    the identifier. *)
Lemma delete_own_row user id table row :
  Resumes.constraints table = true → row ∈ table →
  Resumes.id row = id → Resumes.user_id row = user →
  Resumes.delete (Some user) (λ r, bool_decide (Resumes.id r = id)) table
  = Sql.Ok (filter (λ r, Resumes.id r ≠ id) table).
Proof.
  intros Hkeys Hrow Hid Hown. apply bool_decide_eq_true in Hkeys.
  unfold Resumes.delete, Sql.delete. f_equal. apply filter_ext_in.
  intros r Hr. rewrite andb_True. split.
  - intros Hkeep Heq. apply Hkeep. split; [by apply bool_decide_pack|].
    assert (r = row) as -> by (apply (key_unique Resumes.id table);
                                 [done..|congruence]).
    unfold Resumes.delete_using, Resumes.owned_by.
    apply bool_decide_pack. by rewrite Hown.
  - intros Hne [Heq%bool_decide_unpack _]. done.
Qed.

(** X15.  When the owner deletes a resume, the row is gone and every other
    row stays; load-for-edit on the identifier then fails for every caller,
    the list in memory has no entry with the identifier, and the toast
    reports the deletion. *)
Theorem delete_then_load_fails
    (user id : string) (table : list Resumes.Row) (row : Resumes.Row)
    (s : Dashboard.State) :
  Resumes.constraints table = true → row ∈ table →
  Resumes.id row = id → Resumes.user_id row = user →
  let out := DashboardActions.deleteResume (Some user) None id table s in
  (∀ r, r ∈ out.1.2 ↔ r ∈ table ∧ r ≠ row) ∧
  out.1.2 `sublist_of` table ∧
  (∀ caller,
     fetchResume_query caller id out.1.2
     = Sql.Failure "JSON object requested, multiple (or no) rows returned") ∧
  (∀ caller st,
     fetchResume caller None id out.1.2 st
     = (setIsLoading false st,
        [Toast "Error" "Failed to load resume" true; Navigate "/dashboard"])) ∧
  (∀ r, r ∈ Dashboard.resumes out.1.1 → Resumes.id r ≠ id) ∧
  out.2 = [DashboardActions.Toast "Resume deleted"
             "Your resume has been permanently deleted." false].
Proof.
  intros Hkeys Hrow Hid Hown out.
  assert (out = ({| Dashboard.resumes :=
                      filter (λ r, Resumes.id r ≠ id) (Dashboard.resumes s);
                    Dashboard.isLoading := Dashboard.isLoading s |},
                 filter (λ r, Resumes.id r ≠ id) table,
                 [DashboardActions.Toast "Resume deleted"
                    "Your resume has been permanently deleted." false]))
    as ->.
  { unfold out, DashboardActions.deleteResume. simpl Net.request.
    by rewrite (delete_own_row user id table row). }
  simpl.
  assert (∀ caller,
            fetchResume_query caller id (filter (λ r, Resumes.id r ≠ id) table)
            = Sql.Failure
                "JSON object requested, multiple (or no) rows returned")
    as Hgone.
  { intros caller. apply fetchResume_query_none.
    intros r [Hne _]%list_elem_of_filter Heq. done. }
  split_and!; try done.
  - intros r. rewrite list_elem_of_filter. split.
    + intros [Hne Hin]. split; [done|]. intros ->. done.
    + intros [Hin Hne]. split; [|done]. intros Heq. apply Hne.
      apply (key_unique Resumes.id table); [|done..|congruence].
      by apply bool_decide_eq_true in Hkeys.
  - apply sublist_filter.
  - intros caller st. unfold fetchResume. simpl Net.request.
    by rewrite Hgone.
  - intros r [Hne _]%list_elem_of_filter. done.
Qed.

Lemma delete_then_load_fails_witness :
  (DashboardActions.deleteResume (Some "bob") None "r-2" two_owners
     Dashboard.initial).1.2 `sublist_of` two_owners
  ∧ fetchResume_query (Some "alice") "r-2"
      (DashboardActions.deleteResume (Some "bob") None "r-2" two_owners
         Dashboard.initial).1.2
    = Sql.Failure "JSON object requested, multiple (or no) rows returned".
Proof.
  destruct (delete_then_load_fails "bob" "r-2" two_owners
              (a_resume "r-2" "bob" true 3000) Dashboard.initial)
    as (_ & Hsub & Hgone & _);
    [reflexivity | apply list_elem_of_further, list_elem_of_here
    | reflexivity | reflexivity |].
  split; [exact Hsub | exact (Hgone (Some "alice"))].
Defined.

(* ===================================================================== *)
(** * More on saving *)
(* ===================================================================== *)

(** The table that a save which reaches the store leaves behind. *)
Lemma saveResume_table uid id clientNow now table s :
  Resumes.constraints table = true →
  (saveResume uid None id clientNow now table s).1.2
  = saved uid id now (saveResume_start s) <$> table.
Proof.
  intros Hkeys. rewrite saveResume_unfold. simpl.
  by rewrite saveResume_query_ok.
Qed.

Lemma saved_constraints uid id now s table :
  Resumes.constraints table = true →
  Resumes.constraints (saved uid id now s <$> table) = true.
Proof.
  intros Hkeys. unfold Resumes.constraints in *.
  rewrite <- list_fmap_compose.
  erewrite list_fmap_ext; [exact Hkeys|].
  intros i r _. apply saved_id.
Qed.

Lemma saved_twice uid id now1 now2 s1 s2 r :
  saved uid id now2 s2 (saved uid id now1 s1 r) = saved uid id now2 s2 r.
Proof.
  unfold saved at 2.
  destruct (bool_decide (Resumes.id r = id) && Resumes.update_using uid r)
    eqn:Htarget; [|done].
  unfold saved.
  change (bool_decide
            (Resumes.id (Sql.update_updated_at_column now1
                           (saveResume_set s1 0 r)) = id) &&
          Resumes.update_using uid
            (Sql.update_updated_at_column now1 (saveResume_set s1 0 r)))
    with (bool_decide (Resumes.id r = id) && Resumes.update_using uid r).
  by rewrite Htarget.
Qed.

(** X16.  Saves overwrite, they do not merge: of two saves on the same
    identifier that reach the store, the table after both is the table
    after the second alone, and repeating a save at the same store time
    changes nothing. *)
Theorem save_last_writer_wins
    (uid : option string) (id : string) (c1 c2 now1 now2 : Z)
    (table : list Resumes.Row) (s1 s2 : State) :
  Resumes.constraints table = true →
  let first := (saveResume uid None id c1 now1 table s1).1.2 in
  (saveResume uid None id c2 now2 first s2).1.2
    = (saveResume uid None id c2 now2 table s2).1.2 ∧
  (saveResume uid None id c2 now1 first s1).1.2 = first.
Proof.
  intros Hkeys first.
  assert (first = saved uid id now1 (saveResume_start s1) <$> table) as ->
    by by apply saveResume_table.
  rewrite !saveResume_table by (done || by apply saved_constraints).
  rewrite <- !list_fmap_compose.
  split; apply list_fmap_ext; intros i r _; apply saved_twice.
Qed.

Lemma save_last_writer_wins_witness :
  (saveResume (Some "alice") None "r-1" 1 2000
     (saveResume (Some "alice") None "r-1" 1 1500 two_owners initial).1.2
     ready_session).1.2
  = (saveResume (Some "alice") None "r-1" 1 2000 two_owners
       ready_session).1.2.
Proof.
  apply (save_last_writer_wins (Some "alice") "r-1" 1%Z 1%Z 1500%Z 2000%Z
           two_owners initial ready_session).
  reflexivity.
Defined.

(** X17.  A save that reaches the store keeps the number and the order of
    the rows; of every row it keeps the identifier, the owner, the
    template, the visibility flag and the creation time; and it leaves a
    row alone altogether when the row has another identifier or another
    owner than the caller. *)
Theorem save_frame
    (uid : option string) (id : string) (clientNow now : Z)
    (table : list Resumes.Row) (s : State) (i : nat) (OLD : Resumes.Row) :
  Resumes.constraints table = true → table !! i = Some OLD →
  let table' := (saveResume uid None id clientNow now table s).1.2 in
  length table' = length table ∧
  ∃ NEW, table' !! i = Some NEW ∧
    Resumes.id NEW = Resumes.id OLD ∧
    Resumes.user_id NEW = Resumes.user_id OLD ∧
    Resumes.template_id NEW = Resumes.template_id OLD ∧
    Resumes.is_public NEW = Resumes.is_public OLD ∧
    Resumes.created_at NEW = Resumes.created_at OLD ∧
    (Resumes.id OLD ≠ id ∨ uid ≠ Some (Resumes.user_id OLD) → NEW = OLD).
Proof.
  intros Hkeys Hold table'. unfold table'.
  rewrite saveResume_table by done. split; [apply length_fmap|].
  exists (saved uid id now (saveResume_start s) OLD).
  split; [by rewrite list_lookup_fmap, Hold|].
  unfold saved, Resumes.update_using, Resumes.owned_by.
  destruct (decide (Resumes.id OLD = id)) as [Hid|Hid];
    destruct (decide (uid = Some (Resumes.user_id OLD))) as [Hu|Hu];
    rewrite ?(bool_decide_eq_true_2 _ Hid), ?(bool_decide_eq_false_2 _ Hid),
      ?(bool_decide_eq_true_2 _ Hu), ?(bool_decide_eq_false_2 _ Hu);
    simpl; split_and!; try done.
  intros [? | ?]; done.
Qed.

Lemma save_frame_witness :
  length (saveResume (Some "alice") None "r-1" 1 2000 two_owners
            ready_session).1.2 = length two_owners.
Proof.
  apply (save_frame (Some "alice") "r-1" 1%Z 2000%Z two_owners ready_session
           1%nat (a_resume "r-2" "bob" true 3000)); reflexivity.
Defined.

(** X18.  Opening one's resume and saving it without an edit keeps the
    stored title, and keeps the stored document whenever that document is
    truthy, as every object is; a stored value that is falsy (JSON null,
    for one) is replaced by the complete empty content. *)
Theorem load_then_save_keeps_document
    (user id : string) (clientNow now : Z) (table : list Resumes.Row)
    (row : Resumes.Row) (s : State) :
  Resumes.constraints table = true → row ∈ table →
  Resumes.id row = id → Resumes.user_id row = user →
  let loaded := (fetchResume (Some user) None id table s).1 in
  let table' :=
    (saveResume (Some user) None id clientNow now table loaded).1.2 in
  ∃ row', fetchResume_query (Some user) id table' = Sql.Ok row' ∧
    Resumes.title row' = Resumes.title row ∧
    Resumes.content row'
      = or_else (Resumes.content row) (toJson emptyContent) ∧
    (truthy (Resumes.content row) = true →
       Resumes.content row' = Resumes.content row) ∧
    (truthy (Resumes.content row) = false →
       Resumes.content row' = toJson emptyContent).
Proof.
  intros Hkeys Hrow Hid Hown loaded table'.
  assert (loaded = {| isLoading := false; isSaving := isSaving s;
                      title := Resumes.title row;
                      content := or_else (Resumes.content row)
                                   (toJson emptyContent) |}) as Hloaded.
  { unfold loaded, fetchResume. simpl Net.request.
    rewrite (fetchResume_query_visible (Some user) id table row); try done.
    unfold Resumes.select_policy, Resumes.owned_by.
    by rewrite Hown, bool_decide_eq_true_2. }
  assert (table' = saved (Some user) id now (saveResume_start loaded) <$> table)
    as -> by by apply saveResume_table.
  exists (saved (Some user) id now (saveResume_start loaded) row).
  split.
  - apply fetchResume_query_visible.
    + by apply saved_constraints.
    + by apply list_elem_of_fmap_2.
    + by rewrite saved_id.
    + unfold Resumes.select_policy, Resumes.owned_by.
      by rewrite saved_user_id, Hown, bool_decide_eq_true_2.
  - rewrite (saved_own user id) by done. rewrite Hloaded. simpl.
    split_and!; try done.
    + intros Ht. unfold or_else. by rewrite Ht.
    + intros Ht. unfold or_else. by rewrite Ht.
Qed.

Lemma load_then_save_keeps_document_witness :
  ∃ row', fetchResume_query (Some "bob") "r-2"
            (saveResume (Some "bob") None "r-2" 1 5000 two_owners
               (fetchResume (Some "bob") None "r-2" two_owners initial).1).1.2
          = Sql.Ok row' ∧
    Resumes.title row' = "Untitled Resume".
Proof.
  destruct (load_then_save_keeps_document "bob" "r-2" 1%Z 5000%Z two_owners
              (a_resume "r-2" "bob" true 3000) initial)
    as (row' & Hq & Htitle & _);
    [reflexivity | apply list_elem_of_further, list_elem_of_here
    | reflexivity | reflexivity |].
  exists row'. split; [exact Hq | exact Htitle].
Defined.

(* ===================================================================== *)
(** * The list in memory after a delete *)
(* ===================================================================== *)

Section OrderByFilter.
Context {A : Type} (before : A → A → bool).
Hypothesis before_total : ∀ x y, before x y = false → before y x = true.
Hypothesis before_trans :
  ∀ x y z, before x y = true → before y z = true → before x z = true.
Context (P : A → Prop) `{∀ x, Decision (P x)}.

Local Abbreviation precedes := (λ x y, before x y = true).



End OrderByFilter.



(** For a public resume of someone else the two part: the store deletes
    nothing, the list in memory drops the entry all the same, and the toast
    reports a deletion. *)
Example delete_of_foreign_resume :
  let s :=
    (Dashboard.fetchResumes (Some "alice") None two_owners
       Dashboard.initial).1 in
  DashboardActions.deleteResume (Some "alice") None "r-2" two_owners s
  = ({| Dashboard.resumes := [a_resume "r-1" "alice" false 1000];
        Dashboard.isLoading := false |},
     two_owners,
     [DashboardActions.Toast "Resume deleted"
        "Your resume has been permanently deleted." false]).
Proof. vm_compute. reflexivity. Qed.

(* ===================================================================== *)
(** * More on the template gallery *)
(* ===================================================================== *)

Section NewSet.
Implicit Types (l : list string) (x y : string).



End NewSet.






(** X21.  Letter case does not matter to the filter: two search terms, and
    two selections other than ["all"], that agree after [toLowerCase] show
    the same templates. *)
Theorem filter_ignores_case
    (s : TemplateGallery.State) (selected term : string) :
  TemplateGallery.selectedCategory s ≠ "all" → selected ≠ "all" →
  toLowerCase selected = toLowerCase (TemplateGallery.selectedCategory s) →
  toLowerCase term = toLowerCase (TemplateGallery.searchTerm s) →
  TemplateGallery.filtered
    (TemplateGallery.setSearchTerm term
       (TemplateGallery.setSelectedCategory selected s))
  = TemplateGallery.filtered s.
Proof.
  intros Hall Hall' Hsel Hterm. rewrite !filtered_char. simpl.
  apply list_filter_iff. intros t.
  unfold TemplateGallery.in_category, TemplateGallery.matches.
  rewrite Hsel, Hterm. tauto.
Qed.

Lemma filter_ignores_case_witness :
  TemplateGallery.filtered
    (TemplateGallery.setSearchTerm "EDGE"
       (TemplateGallery.setSelectedCategory "CREATIVE" gallery_session))
  = TemplateGallery.filtered gallery_session.
Proof.
  apply (filter_ignores_case gallery_session "CREATIVE" "EDGE");
    [discriminate | discriminate | reflexivity | reflexivity].
Defined.


(* ===================================================================== *)
(** * Profiles *)
(* ===================================================================== *)

Lemma profiles_constraints_inv table :
  Profiles.constraints table = true →
  NoDup (Profiles.id <$> table) ∧ NoDup (Profiles.user_id <$> table) ∧
  forallb Profiles.tier_ok table = true.
Proof.
  unfold Profiles.constraints. rewrite !andb_true_iff, !bool_decide_eq_true.
  tauto.
Qed.

Lemma NoDup_snoc {A} (l : list A) (x : A) :
  NoDup (l ++ [x]) ↔ NoDup l ∧ x ∉ l.
Proof.
  rewrite NoDup_app. split.
  - intros (Hl & Hdisj & _). split; [done|].
    intros Hin. apply (Hdisj _ Hin), list_elem_of_here.
  - intros [Hl Hout]. split_and!; [done | | apply NoDup_singleton].
    intros y Hy ->%list_elem_of_singleton. done.
Qed.

(** The query of [fetchProfile] finds the caller's own row. *)
Lemma fetchProfile_query_own user profiles row :
  Profiles.constraints profiles = true → row ∈ profiles →
  Profiles.user_id row = user →
  DashboardActions.fetchProfile_query (Some user) user profiles
  = Sql.Ok (shown_profile row).
Proof.
  intros (_ & Husers & _)%profiles_constraints_inv Hrow Hown.
  unfold DashboardActions.fetchProfile_query, Profiles.select.
  rewrite (filter_by_key Profiles.user_id _ profiles row); [done..| |].
  - unfold Profiles.select_policy, Profiles.owned_by.
    rewrite Hown, !bool_decide_eq_true_2; done.
  - intros y [_ Hy]%andb_True. apply bool_decide_unpack in Hy. congruence.
Qed.

(** X23.  [fetchProfile] shows the signed-in user its own profile and no
    other: with a profile row of the user in the table the slot receives
    the display name and the tier of that row; without one the slot keeps
    what it held and the failure is only logged; and without a signed-in
    user nothing is asked and nothing changes. *)
Theorem fetchProfile_reads_own
    (user : string) (profiles : list Profiles.Row)
    (held : option DashboardActions.Profile) :
  Profiles.constraints profiles = true →
  ( ∀ row, row ∈ profiles → Profiles.user_id row = user →
      DashboardActions.fetchProfile (Some user) None profiles held
      = (Some (shown_profile row), []) ) ∧
  ( (∀ row, row ∈ profiles → Profiles.user_id row ≠ user) →
    DashboardActions.fetchProfile (Some user) None profiles held
    = (held, [DashboardActions.ConsoleError "Error fetching profile:"]) ) ∧
  ( ∀ fault,
      DashboardActions.fetchProfile None fault profiles held = (held, []) ).
Proof.
  intros Hkeys. split_and!; [| |done].
  - intros row Hrow Hown. unfold DashboardActions.fetchProfile.
    simpl Net.request. by rewrite (fetchProfile_query_own user profiles row).
  - intros Hnone. unfold DashboardActions.fetchProfile. simpl Net.request.
    unfold DashboardActions.fetchProfile_query, Profiles.select.
    rewrite filter_none; [done|].
    intros r Hin [_ Hu]%andb_True. apply bool_decide_unpack in Hu.
    by apply (Hnone r Hin).
Qed.

Lemma fetchProfile_reads_own_witness :
  DashboardActions.fetchProfile (Some "alice") None
    [a_profile "p-1" "alice" 1000; a_profile "p-2" "bob" 1000] None
  = (Some (shown_profile (a_profile "p-1" "alice" 1000)), []).
Proof.
  apply (fetchProfile_reads_own "alice"
           [a_profile "p-1" "alice" 1000; a_profile "p-2" "bob" 1000] None);
    [reflexivity | apply list_elem_of_here | reflexivity].
Defined.

(** X24.  The sign-up trigger gives a new identity exactly one profile:
    when the identity has none yet (and the generated key is unused), one
    row is appended for it with the display name read from the sign-up
    metadata and the tier "free", the table keeps its constraints, that row
    is the only one of the identity, and [fetchProfile] then shows it; when
    the identity already has a profile the insert is refused. *)
Theorem handle_new_user_one_profile
    (render : Json → string) (new_id : string) (now : Z)
    (NEW : Profiles.AuthUser) (table : list Profiles.Row)
    (held : option DashboardActions.Profile) :
  Profiles.constraints table = true →
  ( new_id ∉ Profiles.id <$> table →
    Profiles.auth_id NEW ∉ Profiles.user_id <$> table →
    ∃ row,
      Profiles.handle_new_user render new_id now NEW table
        = Sql.Ok (table ++ [row])%list ∧
      Profiles.user_id row = Profiles.auth_id NEW ∧
      Profiles.display_name row
        = Profiles.arrow_text render (Profiles.raw_user_meta_data NEW)
            "display_name" ∧
      Profiles.subscription_tier row = Some "free" ∧
      Profiles.constraints (table ++ [row])%list = true ∧
      filter (λ r, Profiles.user_id r = Profiles.auth_id NEW)
        (table ++ [row])%list = [row] ∧
      DashboardActions.fetchProfile (Some (Profiles.auth_id NEW)) None
        (table ++ [row])%list held
      = (Some (shown_profile row), []) ) ∧
  ( Profiles.auth_id NEW ∈ Profiles.user_id <$> table →
    Profiles.handle_new_user render new_id now NEW table
    = Sql.Failure "constraint violation" ).
Proof.
  intros Hkeys.
  destruct (profiles_constraints_inv _ Hkeys) as (Hids & Husers & Htiers).
  set (row := {| Profiles.id := new_id; Profiles.user_id := Profiles.auth_id NEW;
                 Profiles.display_name :=
                   Profiles.arrow_text render (Profiles.raw_user_meta_data NEW)
                     "display_name";
                 Profiles.avatar_url := None;
                 Profiles.subscription_tier := Some "free";
                 Profiles.created_at := now; Profiles.updated_at := now |}).
  split.
  - intros Hfresh Hnew. exists row.
    assert (Profiles.constraints (table ++ [row])%list = true) as Hkeys'.
    { unfold Profiles.constraints.
      rewrite !andb_true_iff, !bool_decide_eq_true, !fmap_app, forallb_app.
      simpl. rewrite !NoDup_snoc, Htiers. done. }
    split_and!; try done.
    + unfold Profiles.handle_new_user, Sql.insert. fold row.
      by rewrite Hkeys'.
    + apply (filter_by_key Profiles.user_id); [| | done | done].
      * by apply profiles_constraints_inv in Hkeys' as (_ & ? & _).
      * apply elem_of_app. right. apply list_elem_of_here.
    + unfold DashboardActions.fetchProfile. simpl Net.request.
      rewrite (fetchProfile_query_own _ _ row); try done.
      apply elem_of_app. right. apply list_elem_of_here.
  - intros Htaken. unfold Profiles.handle_new_user, Sql.insert. fold row.
    assert (Profiles.constraints (table ++ [row])%list = false) as ->; [|done].
    apply not_true_is_false.
    intros (_ & Hdup & _)%profiles_constraints_inv.
    rewrite fmap_app in Hdup. apply NoDup_snoc in Hdup as [_ Hout].
    by apply Hout.
Qed.

Lemma handle_new_user_one_profile_witness :
  ∃ row,
    Profiles.handle_new_user (λ _, "") "p-3" 5000 grace
      [a_profile "p-1" "alice" 1000]
    = Sql.Ok ([a_profile "p-1" "alice" 1000] ++ [row])%list ∧
    Profiles.display_name row = Some "Grace" ∧
    Profiles.subscription_tier row = Some "free".
Proof.
  destruct (handle_new_user_one_profile (λ _, "") "p-3" 5000%Z grace
              [a_profile "p-1" "alice" 1000] None eq_refl) as [Hnew _].
  destruct Hnew as (row & Hins & _ & Hname & Htier & _).
  - simpl. rewrite elem_of_cons, elem_of_nil.
    intros [Heq | []]. discriminate Heq.
  - simpl. rewrite elem_of_cons, elem_of_nil.
    intros [Heq | []]. discriminate Heq.
  - exists row. split_and!; [exact Hins | | exact Htier].
    rewrite Hname. reflexivity.
Defined.

(* ===================================================================== *)
(** * Where a saved or created resume stands in the list *)
(* ===================================================================== *)

(** The list that [fetchResumes] stores when the request goes through. *)
Lemma fetched_list uid table s :
  let listed := Dashboard.resumes (Dashboard.fetchResumes uid None table s).1 in
  StronglySorted newer_first listed ∧
  ∀ r, r ∈ listed ↔ r ∈ table ∧ Resumes.select_policy uid r = true.
Proof.
  simpl. split.
  - eapply StronglySorted_weaken; [| apply order_by_sorted ].
    + intros a b Hab. simpl in Hab. unfold Sql.desc, newer_first in *. lia.
    + intros x y. apply desc_total.
    + intros x y z. apply desc_trans.
  - intros r. rewrite elem_of_order_by. unfold Resumes.select.
    rewrite list_elem_of_filter, andb_true_r, Is_true_true. tauto.
Qed.

(** In a list sorted by recency, a row that is strictly newer than every
    other row stands first. *)
Lemma newest_stands_first (listed : list Resumes.Row) (r : Resumes.Row) :
  StronglySorted newer_first listed → r ∈ listed →
  (∀ r', r' ∈ listed →
         r' = r ∨ (Resumes.updated_at r' < Resumes.updated_at r)%Z) →
  ∃ rest, listed = r :: rest.
Proof.
  intros Hsorted Hin Hnewest.
  destruct Hsorted as [|h rest _ Hall]; [by apply elem_of_nil in Hin|].
  destruct (Hnewest h (list_elem_of_here _ _)) as [-> | Hlt];
    [by exists rest|].
  apply elem_of_cons in Hin as [-> | Hin]; [by exists rest|].
  rewrite Forall_forall in Hall. specialize (Hall r Hin).
  unfold newer_first in Hall. lia.
Qed.

(** X25.  After a save of one's resume at a store time later than every
    timestamp in the table, [fetchResumes] lists that resume first, with
    the saved title. *)
Theorem saved_resume_listed_first
    (user id : string) (clientNow now : Z) (table : list Resumes.Row)
    (row : Resumes.Row) (s : State) (d : Dashboard.State) :
  Resumes.constraints table = true → row ∈ table →
  Resumes.id row = id → Resumes.user_id row = user →
  (∀ r, r ∈ table → (Resumes.updated_at r < now)%Z) →
  let table' := (saveResume (Some user) None id clientNow now table s).1.2 in
  ∃ first rest,
    Dashboard.resumes (Dashboard.fetchResumes (Some user) None table' d).1
      = first :: rest ∧
    Resumes.id first = id ∧ Resumes.title first = title s ∧
    Resumes.content first = content s ∧ Resumes.updated_at first = now.
Proof.
  intros Hkeys Hrow Hid Hown Hclock table'. unfold table'.
  rewrite saveResume_table by done.
  set (saving := saveResume_start s).
  set (first := saved (Some user) id now saving row).
  assert (first = Sql.update_updated_at_column now (saveResume_set saving 0 row))
    as Hfirst by by apply saved_own.
  destruct (fetched_list (Some user) (saved (Some user) id now saving <$> table)
              d) as [Hsorted Hmem].
  destruct (newest_stands_first _ first Hsorted) as [rest Hlisted].
  - apply Hmem. split; [by apply list_elem_of_fmap_2|].
    unfold Resumes.select_policy, Resumes.owned_by, first.
    by rewrite saved_user_id, Hown, bool_decide_eq_true_2.
  - intros r' [(r & -> & Hr)%list_elem_of_fmap _]%Hmem.
    destruct (bool_decide (Resumes.id r = id) &&
              Resumes.update_using (Some user) r) eqn:Htarget.
    + left. apply andb_prop in Htarget as [Hrid _].
      apply bool_decide_eq_true in Hrid.
      assert (r = row) as ->; [|done].
      apply (key_unique Resumes.id table); [|done..|congruence].
      by apply bool_decide_eq_true in Hkeys.
    + right. rewrite Hfirst. unfold saved. rewrite Htarget. simpl.
      by apply Hclock.
  - exists first, rest. split; [exact Hlisted|].
    rewrite Hfirst. simpl. by split_and!.
Qed.

Lemma saved_resume_listed_first_witness :
  ∃ first rest,
    Dashboard.resumes
      (Dashboard.fetchResumes (Some "alice") None
         (saveResume (Some "alice") None "r-1" 1 5000 two_owners
            ready_session).1.2 Dashboard.initial).1
      = first :: rest ∧
    Resumes.id first = "r-1" ∧ Resumes.title first = "CV".
Proof.
  destruct (saved_resume_listed_first "alice" "r-1" 1%Z 5000%Z two_owners
              (a_resume "r-1" "alice" false 1000) ready_session
              Dashboard.initial)
    as (first & rest & Hlisted & Hid & Htitle & _);
    [reflexivity | apply list_elem_of_here | reflexivity | reflexivity | |].
  - intros r Hin. apply elem_of_cons in Hin as [-> | Hin]; [simpl; lia|].
    apply list_elem_of_singleton in Hin as ->. simpl. lia.
  - exists first, rest. split_and!; [exact Hlisted | exact Hid | exact Htitle].
Defined.

(** X26.  A resume created at a store time later than every timestamp in
    the table is listed first for its owner by [fetchResumes]. *)
Theorem created_resume_listed_first
    (user new_id : string) (now : Z) (table : list Resumes.Row)
    (d : Dashboard.State) :
  Resumes.constraints table = true → new_id ∉ Resumes.id <$> table →
  (∀ r, r ∈ table → (Resumes.updated_at r < now)%Z) →
  let table' :=
    (DashboardActions.createNewResume (Some user) None new_id now table).1 in
  ∃ rest,
    Dashboard.resumes (Dashboard.fetchResumes (Some user) None table' d).1
    = Resumes.inserted new_id now user "New Resume" "modern-minimal"
        DashboardActions.blank :: rest.
Proof.
  intros Hkeys Hfresh Hclock table'.
  set (row := Resumes.inserted new_id now user "New Resume" "modern-minimal"
                DashboardActions.blank).
  assert (table' = (table ++ [row])%list) as ->.
  { unfold table', DashboardActions.createNewResume. simpl Net.request.
    fold row.
    by rewrite (proj1 (insert_returning_own (Some user) row table Hkeys
                         eq_refl Hfresh)). }
  destruct (fetched_list (Some user) (table ++ [row])%list d)
    as [Hsorted Hmem].
  apply newest_stands_first; [done | |].
  - apply Hmem. split; [apply elem_of_app; right; apply list_elem_of_here|].
    unfold Resumes.select_policy, Resumes.owned_by. simpl.
    by rewrite bool_decide_eq_true_2.
  - intros r' [Hin _]%Hmem.
    apply elem_of_app in Hin as [Hin | Hin]; [right; by apply Hclock|].
    left. by apply list_elem_of_singleton in Hin.
Qed.

Lemma created_resume_listed_first_witness :
  ∃ rest,
    Dashboard.resumes
      (Dashboard.fetchResumes (Some "alice") None
         (DashboardActions.createNewResume (Some "alice") None "r-3" 4000
            two_owners).1 Dashboard.initial).1
    = Resumes.inserted "r-3" 4000 "alice" "New Resume" "modern-minimal"
        DashboardActions.blank :: rest.
Proof.
  apply (created_resume_listed_first "alice" "r-3" 4000%Z two_owners
           Dashboard.initial); [reflexivity | |].
  - simpl. rewrite !elem_of_cons, elem_of_nil.
    intros [Heq | [Heq | []]]; discriminate Heq.
  - intros r Hin. apply elem_of_cons in Hin as [-> | Hin]; [simpl; lia|].
    apply list_elem_of_singleton in Hin as ->. simpl. lia.
Defined.

(** X27.  The tier of a profile is a column like any other to the update
    policy: the owner of a profile can set its own tier, to "premium" as
    well as to "free" or to [NULL], and the row then carries that tier and
    the store's time; any other value is refused by the check constraint
    and the table stays as it was. *)
Theorem profile_tier_is_owner_writable
    (user : string) (now : Z) (tier : option string)
    (table : list Profiles.Row) (row : Profiles.Row) :
  Profiles.constraints table = true → row ∈ table →
  Profiles.user_id row = user →
  let statement :=
    Profiles.update (Some user) now
      (λ r, bool_decide (Profiles.user_id r = user)) (set_tier tier) table in
  ( Profiles.tier_ok (set_tier tier row) = true →
    ∃ table', statement = Sql.Ok table' ∧
      Sql.update_updated_at_column now (set_tier tier row) ∈ table' ∧
      Profiles.constraints table' = true ) ∧
  ( Profiles.tier_ok (set_tier tier row) = false →
    statement = Sql.Failure "constraint violation" ).
Proof.
  intros Hkeys Hrow Hown statement.
  destruct (profiles_constraints_inv _ Hkeys) as (Hids & Husers & Htiers).
  set (f := λ r : Profiles.Row,
         if bool_decide (Profiles.user_id r = user) &&
            Profiles.update_using (Some user) r
         then Sql.update_updated_at_column now (set_tier tier r) else r).
  assert (∀ r, Profiles.id (f r) = Profiles.id r) as Hfid
    by (intros r; unfold f; by destruct (_ && _)).
  assert (∀ r, Profiles.user_id (f r) = Profiles.user_id r) as Hfuser
    by (intros r; unfold f; by destruct (_ && _)).
  assert (f row = Sql.update_updated_at_column now (set_tier tier row)) as Hfrow.
  { unfold f, Profiles.update_using, Profiles.owned_by.
    by rewrite Hown, !bool_decide_eq_true_2. }
  assert (mapM (Sql.update_row (Profiles.update_using (Some user))
                  (Profiles.update_check (Some user))
                  (Sql.update_updated_at_column now)
                  (λ r, bool_decide (Profiles.user_id r = user))
                  (set_tier tier)) table = Some (f <$> table)) as HmapM.
  { apply mapM_Some_2, Forall2_fmap_r, Forall_Forall2_diag, Forall_forall.
    intros r _. unfold Sql.update_row, f, compose. cbv beta.
    destruct (bool_decide (Profiles.user_id r = user) &&
              Profiles.update_using (Some user) r) eqn:Htarget; [|done].
    apply andb_prop in Htarget as [_ Hu].
    assert (Profiles.update_check (Some user)
              (Sql.update_updated_at_column now (set_tier tier r)) = true)
      as -> by exact Hu.
    reflexivity. }
  assert (Profiles.constraints (f <$> table)
          = forallb Profiles.tier_ok (f <$> table)) as Hcons.
  { unfold Profiles.constraints. rewrite <- !list_fmap_compose.
    rewrite (list_fmap_ext (Profiles.id ∘ f) Profiles.id table)
      by (intros; apply Hfid).
    rewrite (list_fmap_ext (Profiles.user_id ∘ f) Profiles.user_id table)
      by (intros; apply Hfuser).
    by rewrite !bool_decide_eq_true_2. }
  unfold statement, Profiles.update, Sql.update. rewrite HmapM, Hcons.
  split.
  - intros Hok. exists (f <$> table).
    assert (forallb Profiles.tier_ok (f <$> table) = true) as Hall.
    { apply forallb_forall. intros r' Hin.
      apply list_elem_of_In, list_elem_of_fmap in Hin as (r & -> & Hr).
      unfold f. destruct (_ && _).
      - exact Hok.
      - rewrite forallb_forall in Htiers. by apply Htiers, list_elem_of_In. }
    rewrite Hall. split_and!; [done | | by rewrite Hcons].
    rewrite <- Hfrow. by apply list_elem_of_fmap_2.
  - intros Hbad.
    assert (forallb Profiles.tier_ok (f <$> table) = false) as ->; [|done].
    apply not_true_is_false. intros Hall. rewrite forallb_forall in Hall.
    specialize (Hall (f row)).
    rewrite Hfrow in Hall.
    assert (Profiles.tier_ok
              (Sql.update_updated_at_column now (set_tier tier row)) = true)
      as Hok.
    { apply Hall. rewrite <- Hfrow.
      by apply list_elem_of_In, list_elem_of_fmap_2. }
    change (Profiles.tier_ok (set_tier tier row) = true) in Hok. congruence.
Qed.

Lemma profile_tier_is_owner_writable_witness :
  ( ∃ table',
      Profiles.update (Some "alice") 2000
        (λ r, bool_decide (Profiles.user_id r = "alice"))
        (set_tier (Some "premium")) [a_profile "p-1" "alice" 1000]
      = Sql.Ok table' ∧
      Sql.update_updated_at_column 2000
        (set_tier (Some "premium") (a_profile "p-1" "alice" 1000)) ∈ table' ∧
      Profiles.constraints table' = true ) ∧
  Profiles.update (Some "alice") 2000
    (λ r, bool_decide (Profiles.user_id r = "alice"))
    (set_tier (Some "gold")) [a_profile "p-1" "alice" 1000]
  = Sql.Failure "constraint violation".
Proof.
  split.
  - apply (profile_tier_is_owner_writable "alice" 2000%Z (Some "premium")
             [a_profile "p-1" "alice" 1000] (a_profile "p-1" "alice" 1000));
      [reflexivity | apply list_elem_of_here | reflexivity | reflexivity].
  - apply (profile_tier_is_owner_writable "alice" 2000%Z (Some "gold")
             [a_profile "p-1" "alice" 1000] (a_profile "p-1" "alice" 1000));
      [reflexivity | apply list_elem_of_here | reflexivity | reflexivity].
Defined.
